(** * helpers.py: retry-wrapped fetches and Telegram notifications

    A shallow embedding of [safe_fetch] and [send_telegram_message] from
    [helpers.py], together with the part of tenacity's retry loop that the
    [@retry(stop=stop_after_attempt(3), wait=wait_exponential(multiplier=1,
    min=2, max=10))] decorator instantiates.

    Python text is a list of Unicode code points, so that [len], slicing and
    concatenation count characters as Python does.  Effects (calls to the
    wrapped coroutine, calls to the bot, logging calls and backoff sleeps)
    are threaded through a state-and-exception monad whose state is the
    outside world and the trace of observable events. *)

From Stdlib Require Import List String Ascii NArith ZArith Bool Lia Decimal.
From Stdlib.Strings Require Import Byte.
Import ListNotations.

Set Implicit Arguments.

(** ** Python strings *)

Module PyStr.

(** A character is a Unicode code point. *)
Definition char := N.
Definition pystr := list char.

Definition len (s : pystr) : nat := List.length s.

(** Continuation byte [10xxxxxx] of a UTF-8 sequence: its six payload
    bits. *)
Definition low6 (b : N) : N := N.land b 63.

(** Decoding of a UTF-8 byte sequence into code points; the literals of
    the source file are written in UTF-8. *)
Fixpoint utf8_decode (fuel : nat) (bs : list N) : pystr :=
  match fuel with
  | O => []
  | S fuel' =>
      match bs with
      | [] => []
      | b0 :: r0 =>
          if (b0 <? 128)%N then b0 :: utf8_decode fuel' r0
          else if (b0 <? 224)%N then
            match r0 with
            | b1 :: r1 =>
                (N.land b0 31 * 64 + low6 b1)%N :: utf8_decode fuel' r1
            | _ => []
            end
          else if (b0 <? 240)%N then
            match r0 with
            | b1 :: b2 :: r2 =>
                (N.land b0 15 * 4096 + low6 b1 * 64 + low6 b2)%N
                  :: utf8_decode fuel' r2
            | _ => []
            end
          else
            match r0 with
            | b1 :: b2 :: b3 :: r3 =>
                (N.land b0 7 * 262144 + low6 b1 * 4096
                 + low6 b2 * 64 + low6 b3)%N
                  :: utf8_decode fuel' r3
            | _ => []
            end
      end
  end.

(** A string literal of the source. *)
Definition lit (s : string) : pystr :=
  let bs := List.map Byte.to_N (list_byte_of_string s) in
  utf8_decode (List.length bs) bs.

(** [str(n)] for a non-negative [int]: its decimal digits. *)
Fixpoint digits (d : Decimal.uint) : pystr :=
  match d with
  | Nil => []
  | D0 d' => 48%N :: digits d'
  | D1 d' => 49%N :: digits d'
  | D2 d' => 50%N :: digits d'
  | D3 d' => 51%N :: digits d'
  | D4 d' => 52%N :: digits d'
  | D5 d' => 53%N :: digits d'
  | D6 d' => 54%N :: digits d'
  | D7 d' => 55%N :: digits d'
  | D8 d' => 56%N :: digits d'
  | D9 d' => 57%N :: digits d'
  end.

Definition str_of_nat (n : nat) : pystr := digits (Nat.to_uint n).

(** [s[:n]] *)
Definition slice_to (n : nat) (s : pystr) : pystr := firstn n s.

(** [t.startswith(s)] *)
Fixpoint startswith (s t : pystr) : bool :=
  match s, t with
  | [], _ => true
  | c :: s', d :: t' => (c =? d)%N && startswith s' t'
  | _ :: _, [] => false
  end.

(** [s in t] *)
Fixpoint contains (s t : pystr) : bool :=
  startswith s t ||
  match t with
  | [] => false
  | _ :: t' => contains s t'
  end.

(** The text [t] mentions [s]: [s] occurs in it as a substring. *)
Definition mentions (t s : pystr) : Prop :=
  exists pre post, t = pre ++ s ++ post.

End PyStr.
Import PyStr.

(** ** Exceptions, log records and observable events *)

(** The exceptions the wrapped operations raise: instances of [Exception].
    [telegram.error.TelegramError] and its subclasses are one kind, every
    other [Exception] subclass the other; [detail] is what [str(e)]
    returns.  Signals that derive from [BaseException] only
    ([KeyboardInterrupt], [asyncio.CancelledError]) are not errors and are
    not part of the model. *)
Inductive exception :=
| TelegramError (detail : pystr)
| OtherException (class_name detail : pystr).

Definition str (e : exception) : pystr :=
  match e with
  | TelegramError detail => detail
  | OtherException _ detail => detail
  end.

(** [isinstance(e, telegram.error.TelegramError)] *)
Definition is_TelegramError (e : exception) : bool :=
  match e with
  | TelegramError _ => true
  | OtherException _ _ => false
  end.

(** tenacity's record of a failed attempt ([RetryCallState.outcome]); only
    attempts that raised are ever stored in a [RetryError]. *)
Record Future := mkFuture {
  attempt_number : nat;
  exception_of : exception
}.

(** What a caller of a decorated function can see raised: an exception of
    the wrapped operation itself, or [tenacity.RetryError(last_attempt)]. *)
Inductive raised :=
| Exc (e : exception)
| RetryError (last_attempt : Future).

Inductive level := DEBUG | INFO | WARNING | ERROR.

(** A call [logging.<level>(msg, exc_info=...)]; with [exc_info=True] the
    record carries the exception being handled and its traceback. *)
Record LogRecord := mkLog {
  levelname : level;
  message : pystr;
  exc_info : option exception
}.

(** [telegram.constants.ParseMode] *)
Inductive ParseMode := MARKDOWN | MARKDOWN_V2 | HTML.

(** [telegram.Bot(token=...)] *)
Record Bot := mkBot { token : pystr }.

Inductive event :=
| Await
    (* safe_fetch awaits method( *args, **kwargs) *)
| SendMessage (bot : Bot) (chat_id text : pystr) (parse_mode : ParseMode)
    (* await bot.send_message(chat_id=, text=, parse_mode=) *)
| Logging (r : LogRecord)
| Sleep (seconds : Z).
    (* the backoff wait between two attempts *)

Definition trace := list event.

(** ** The state-and-exception monad *)

Inductive outcome (E A : Type) :=
| Return (a : A)
| Raise (e : E).
Arguments Return {E A} a.
Arguments Raise {E A} e.

Section Effects.

(** The world outside the process: the exchange, the network, the
    Telegram service. *)
Variable W : Type.

Definition state : Type := W * trace.

Definition M (E A : Type) : Type := state -> outcome E A * state.

Definition ret {E A} (a : A) : M E A := fun st => (Return a, st).

Definition raise {E A} (e : E) : M E A := fun st => (Raise e, st).

Definition bind {E A B} (c : M E A) (k : A -> M E B) : M E B :=
  fun st =>
    match c st with
    | (Return a, st') => k a st'
    | (Raise e, st') => (Raise e, st')
    end.

(** [try: c  except Exception as e: h e] *)
Definition try_except {E E' A} (c : M E A) (h : E -> M E' A) : M E' A :=
  fun st =>
    match c st with
    | (Return a, st') => (Return a, st')
    | (Raise e, st') => h e st'
    end.

Definition emit {E} (ev : event) : M E unit :=
  fun st => (Return tt, (fst st, snd st ++ [ev])).

(** An awaited external call: it only acts on the world. *)
Definition await {E A} (op : W -> outcome E A * W) : M E A :=
  fun st => let (r, w') := op (fst st) in (r, (w', snd st)).

Definition logging_info {E} (msg : pystr) : M E unit :=
  emit (Logging (mkLog INFO msg None)).
Definition logging_warning {E} (msg : pystr) : M E unit :=
  emit (Logging (mkLog WARNING msg None)).
Definition logging_error {E} (msg : pystr) (exc : option exception)
  : M E unit :=
  emit (Logging (mkLog ERROR msg exc)).

End Effects.

Arguments ret {W E A} a.
Arguments raise {W E A} e.
Arguments emit {W E} ev.
Arguments logging_info {W E} msg.
Arguments logging_warning {W E} msg.
Arguments logging_error {W E} msg exc.

Declare Scope py_scope.
Delimit Scope py_scope with py.
Notation "x <- c ;; k" := (bind c (fun x => k))
  (at level 61, c at next level, right associativity) : py_scope.
Notation "c ;; k" := (bind c (fun _ => k))
  (at level 61, right associativity) : py_scope.
Open Scope py_scope.

(** ** tenacity *)

Module tenacity.

(** [stop_after_attempt(max_attempt_number)]:
    [retry_state.attempt_number >= self.max_attempt_number] *)
Definition stop_after_attempt (max_attempt_number : nat)
    (attempt_number : nat) : bool :=
  max_attempt_number <=? attempt_number.

(** [wait_exponential(multiplier, min, max)] with the default
    [exp_base = 2]:
    [max(max(0, min), min(multiplier * exp_base ** (attempt_number - 1), max))] *)
Definition wait_exponential (multiplier min max : Z)
    (attempt_number : nat) : Z :=
  let exp := (2 ^ (Z.of_nat attempt_number - 1))%Z in
  let result := (multiplier * exp)%Z in
  Z.max (Z.max 0 min) (Z.min result max).

Section Retrying.

Variables W T : Type.
Variable stop : nat -> bool.
Variable wait : nat -> Z.
Variable fn : M W exception T.

(** The loop of [AsyncRetrying.__call__] with the default
    [retry=retry_if_exception_type()] and [reraise=False]: attempt,
    return the result if there is one; otherwise raise [RetryError]
    around the failed attempt when [stop] says so, else sleep for
    [wait] and attempt again.  [fuel] bounds the number of attempts of
    the [while True]. *)
Fixpoint retrying (fuel : nat) (attempt_number : nat) (st : state W)
  : option (outcome raised T * state W) :=
  match fuel with
  | O => None
  | S fuel' =>
      match fn st with
      | (Return result, st') => Some (Return result, st')
      | (Raise e, st') =>
          if stop attempt_number then
            Some (Raise (RetryError (mkFuture attempt_number e)), st')
          else
            let sleep := wait attempt_number in
            retrying fuel' (S attempt_number)
                     (snd (emit (E:=raised) (Sleep sleep) st'))
      end
  end.

End Retrying.

(** [@retry(stop=..., wait=...)]: the first attempt has number 1. *)
Definition retry {W T} (stop : nat -> bool) (wait : nat -> Z)
    (fn : M W exception T) (fuel : nat) (st : state W) :=
  retrying stop wait fn fuel 1 st.

End tenacity.

(** ** helpers.py *)

(** The policy both decorators spell out. *)
Definition policy_stop : nat -> bool := tenacity.stop_after_attempt 3.
Definition policy_wait : nat -> Z := tenacity.wait_exponential 1 2 10.

Section SafeFetch.

Variables W T : Type.

(** [method( *args, **kwargs)]: the coroutine call with its arguments. *)
Variable method : W -> outcome exception T * W.

(** The undecorated body of [safe_fetch]. *)
Definition safe_fetch_body : M W exception T :=
  try_except
    (emit Await ;; await method)
    (fun e =>
       logging_error (lit "请求失败: " ++ str e) None ;;
       raise e).

Definition safe_fetch (fuel : nat) (st : state W)
  : option (outcome raised T * state W) :=
  tenacity.retry policy_stop policy_wait safe_fetch_body fuel st.

End SafeFetch.

(** What a Python function can hand back here: [None], or the
    [telegram.Message] the bot returns. *)
Inductive pyobject (Message : Type) :=
| PyNone
| PyMessage (m : Message).
Arguments PyNone {Message}.
Arguments PyMessage {Message} m.

(** Truth value of a configuration entry: [None] and the empty string are
    false. *)
Definition truthy (v : option pystr) : bool :=
  match v with
  | Some (_ :: _) => true
  | _ => false
  end.

Definition the (v : option pystr) : pystr :=
  match v with
  | Some s => s
  | None => []
  end.

Definition LF : char := 10%N.

Definition default_title : pystr := lit "交易通知".

Definition max_length : nat := 4000.

(** [f"*{title}*\n\n{content}"] *)
Definition render (title content : pystr) : pystr :=
  lit "*" ++ title ++ lit "*" ++ [LF; LF] ++ content.

Section SendTelegramMessage.

Variables W Message : Type.

(** [from config import TELEGRAM_BOT_TOKEN, TELEGRAM_CHAT_ID] *)
Variables TELEGRAM_BOT_TOKEN TELEGRAM_CHAT_ID : option pystr.

(** [telegram.Bot.send_message] *)
Variable send_message :
  Bot -> pystr -> pystr -> ParseMode -> W -> outcome exception Message * W.

Definition bot_send_message (bot : Bot) (chat_id text : pystr)
    (parse_mode : ParseMode) : M W exception Message :=
  emit (SendMessage bot chat_id text parse_mode) ;;
  await (send_message bot chat_id text parse_mode).

(** The undecorated body of [send_telegram_message]. *)
Definition send_telegram_message_body (content title : pystr)
  : M W exception (pyobject Message) :=
  if negb (truthy TELEGRAM_BOT_TOKEN) || negb (truthy TELEGRAM_CHAT_ID)
  then
    logging_error
      (lit "未配置TELEGRAM_BOT_TOKEN或TELEGRAM_CHAT_ID，无法发送Telegram通知")
      None ;;
    ret PyNone
  else
    let bot := mkBot (the TELEGRAM_BOT_TOKEN) in
    let full_message := render title content in
    try_except
      (logging_info (lit "正在发送Telegram通知: " ++ title) ;;
       full_message <-
         (if max_length <? len full_message then
            logging_warning
              (lit "消息过长 (" ++ str_of_nat (len full_message)
               ++ lit " chars)，将被截断.") ;;
            ret (slice_to max_length full_message ++ lit "...")
          else ret full_message) ;;
       _ <- bot_send_message bot (the TELEGRAM_CHAT_ID) full_message
              MARKDOWN ;;
       logging_info (lit "Telegram消息发送成功") ;;
       ret PyNone)
      (fun e =>
         if is_TelegramError e then
           logging_error (lit "Telegram消息发送失败: " ++ str e) None ;;
           raise e
         else
           logging_error (lit "发送Telegram消息时发生未知错误: " ++ str e)
             (Some e) ;;
           raise e).

(** [send_telegram_message(content, title="交易通知")]; [title = None]
    stands for a call that omits the argument. *)
Definition send_telegram_message (content : pystr) (title : option pystr)
    (fuel : nat) (st : state W)
  : option (outcome raised (pyobject Message) * state W) :=
  let title :=
    match title with
    | Some t => t
    | None => default_title
    end in
  tenacity.retry policy_stop policy_wait
    (send_telegram_message_body content title) fuel st.

End SendTelegramMessage.

(** ** Observations on traces *)

(** How many times [safe_fetch] awaited its [method]. *)
Fixpoint invocations (tr : trace) : nat :=
  match tr with
  | [] => 0
  | Await :: tr' => S (invocations tr')
  | _ :: tr' => invocations tr'
  end.

(** The arguments of the calls to [bot.send_message], in order. *)
Fixpoint sends (tr : trace) : list (Bot * pystr * pystr * ParseMode) :=
  match tr with
  | [] => []
  | SendMessage bot chat_id text parse_mode :: tr' =>
      (bot, chat_id, text, parse_mode) :: sends tr'
  | _ :: tr' => sends tr'
  end.

(** The texts handed to [bot.send_message], in order. *)
Definition texts (tr : trace) : list pystr :=
  map (fun call => snd (fst call)) (sends tr).

(** The backoff delays applied, in order. *)
Fixpoint sleeps (tr : trace) : list Z :=
  match tr with
  | [] => []
  | Sleep seconds :: tr' => seconds :: sleeps tr'
  | _ :: tr' => sleeps tr'
  end.

(** The records handed to [logging], in order. *)
Fixpoint logs (tr : trace) : list LogRecord :=
  match tr with
  | [] => []
  | Logging r :: tr' => r :: logs tr'
  | _ :: tr' => logs tr'
  end.

(** The records logged after the last call to [bot.send_message] (all of
    them when there is no such call). *)
Fixpoint logs_after_last_send (tr : trace) : list LogRecord :=
  match tr with
  | [] => []
  | ev :: tr' =>
      match sends tr' with
      | _ :: _ => logs_after_last_send tr'
      | [] =>
          match ev with
          | SendMessage _ _ _ _ => logs tr'
          | _ => logs (ev :: tr')
          end
      end
  end.

(** The operation [op] raises the exceptions [es], one per call, taking the
    world from [w] to [w']. *)
Fixpoint fails_through {W A} (op : W -> outcome exception A * W)
    (w : W) (es : list exception) (w' : W) : Prop :=
  match es with
  | [] => w = w'
  | e :: es' =>
      exists w1, op w = (Raise e, w1) /\ fails_through op w1 es' w'
  end.

(** The record [safe_fetch] logs for a failed attempt. *)
Definition fetch_failure (e : exception) : LogRecord :=
  mkLog ERROR (lit "请求失败: " ++ str e) None.

(** What one failed attempt of [safe_fetch] adds to the trace. *)
Definition fetch_failed (e : exception) : trace :=
  [Await; Logging (fetch_failure e)].

(** The text [send_telegram_message] hands to the bot. *)
Definition payload (title content : pystr) : pystr :=
  if max_length <? len (render title content)
  then slice_to max_length (render title content) ++ lit "..."
  else render title content.

Definition announcement (title : pystr) : LogRecord :=
  mkLog INFO (lit "正在发送Telegram通知: " ++ title) None.

Definition too_long_warning (L : nat) : LogRecord :=
  mkLog WARNING (lit "消息过长 (" ++ str_of_nat L ++ lit " chars)，将被截断.")
        None.

Definition confirmation : LogRecord :=
  mkLog INFO (lit "Telegram消息发送成功") None.

Definition missing_configuration : LogRecord :=
  mkLog ERROR
    (lit "未配置TELEGRAM_BOT_TOKEN或TELEGRAM_CHAT_ID，无法发送Telegram通知")
    None.

(** The record [send_telegram_message] logs for a failed attempt. *)
Definition delivery_failure (e : exception) : LogRecord :=
  if is_TelegramError e
  then mkLog ERROR (lit "Telegram消息发送失败: " ++ str e) None
  else mkLog ERROR (lit "发送Telegram消息时发生未知错误: " ++ str e) (Some e).

(** What an attempt of [send_telegram_message] adds to the trace up to and
    including the call to the bot. *)
Definition attempt_prefix (token chat_id title content : pystr) : trace :=
  Logging (announcement title)
  :: (if max_length <? len (render title content)
      then [Logging (too_long_warning (len (render title content)))]
      else [])
  ++ [SendMessage (mkBot token) chat_id (payload title content) MARKDOWN].

Definition delivery_failed (token chat_id title content : pystr)
    (e : exception) : trace :=
  attempt_prefix token chat_id title content
  ++ [Logging (delivery_failure e)].

Definition delivered (token chat_id title content : pystr) : trace :=
  attempt_prefix token chat_id title content ++ [Logging confirmation].

(** What a failed attempt followed by its backoff adds to the trace. *)
Definition retried (failed : exception -> trace) (es : list exception)
  : trace :=
  flat_map (fun e => failed e ++ [Sleep 2]) es.

(** Both configuration entries are there: the guard of
    [send_telegram_message] lets the call through. *)
Definition configured (bot_token chat_id : option pystr) : Prop :=
  truthy bot_token = true /\ truthy chat_id = true.

(** ** Scenarios *)

Module Scenario.

(** An operation that replays a script of outcomes, one per call, and
    answers [otherwise] once the script is used up.  The world is the
    part of the script still to play. *)
Definition scripted {A} (otherwise : outcome exception A)
    (w : list (outcome exception A)) : outcome exception A * list (outcome exception A) :=
  match w with
  | [] => (otherwise, [])
  | r :: w' => (r, w')
  end.

Definition timed_out : exception :=
  OtherException (lit "TimeoutError") (lit "timed out").

Definition chat_not_found : exception :=
  TelegramError (lit "Chat not found").

Definition bot_token : option pystr := Some (lit "110201543:AAHdqTcvCH1vGWJxfSeofSAs0K5PALDsaw").
Definition chat_id : option pystr := Some (lit "-1001234567890").

(** A transport that fails on every call. *)
Definition unreachable (_ : Bot) (_ _ : pystr) (_ : ParseMode) :=
  scripted (A:=unit) (Raise chat_not_found).

(** A transport that plays its script and then delivers. *)
Definition flaky (_ : Bot) (_ _ : pystr) (_ : ParseMode) :=
  scripted (Return tt).

(** A body of 4500 characters. *)
Definition long_body : pystr := repeat 120%N 4500.

End Scenario.

(** ** format_trade_message *)

(** [s == t] on strings. *)
Fixpoint pystr_eqb (s t : pystr) : bool :=
  match s, t with
  | [], [] => true
  | c :: s', d :: t' => (c =? d)%N && pystr_eqb s' t'
  | _, _ => false
  end.

(** [str(n)] for an [int]. *)
Definition str_of_Z (z : Z) : pystr :=
  match z with
  | Z0 => lit "0"
  | Zpos p => digits (Pos.to_uint p)
  | Zneg p => lit "-" ++ digits (Pos.to_uint p)
  end.

Definition ValueError (detail : pystr) : exception :=
  OtherException (lit "ValueError") detail.

(** [current, max_retries = retry_count] for a tuple of integers: anything
    but two values raises [ValueError]. *)
Definition unpack_pair (retry_count : list Z) : outcome exception (Z * Z) :=
  match retry_count with
  | [current; max_retries] => Return (current, max_retries)
  | [] | [_] =>
      Raise (ValueError (lit "not enough values to unpack (expected 2, got "
                         ++ str_of_nat (List.length retry_count) ++ lit ")"))
  | _ => Raise (ValueError (lit "too many values to unpack (expected 2)"))
  end.

(** [if retry_count:] for [None] or a tuple. *)
Definition tuple_truthy (retry_count : option (list Z)) : bool :=
  match retry_count with
  | Some (_ :: _) => true
  | _ => false
  end.

Section FormatTradeMessage.

(** Python floats.  How they print is taken as given: [format_2f x] is
    [f"{x:.2f}"], [format_4f x] is [f"{x:.4f}"], [format_str x] is
    [f"{x}"]. *)
Variable float : Type.
Variables format_2f format_4f format_str : float -> pystr.

(** The body of the message, between the opening and closing triple
    quotes. *)
Definition message_body (side symbol : pystr)
    (price amount total grid_size : float) : pystr :=
  let direction_emoji :=
    if pystr_eqb side (lit "buy") then lit "🟢" else lit "🔴" in
  let direction_text :=
    if pystr_eqb side (lit "buy") then lit "买入" else lit "卖出" in
  [LF] ++ direction_emoji ++ lit " " ++ direction_text ++ lit " " ++ symbol
  ++ [LF] ++ lit "━━━━━━━━━━━━━━━━━━━━"
  ++ [LF] ++ lit "💰 价格：" ++ format_2f price ++ lit " USDT"
  ++ [LF] ++ lit "📊 数量：" ++ format_4f amount ++ lit " BNB"
  ++ [LF] ++ lit "💵 金额：" ++ format_2f total ++ lit " USDT"
  ++ [LF] ++ lit "📈 网格：" ++ format_str grid_size ++ lit "%"
  ++ [LF].

(** [format_trade_message(side, symbol, price, amount, total, grid_size,
    retry_count=None)]; [now] is what
    [time.strftime('%Y-%m-%d %H:%M:%S')] reads off the clock. *)
Definition format_trade_message (side symbol : pystr)
    (price amount total grid_size : float)
    (retry_count : option (list Z)) (now : pystr)
  : outcome exception pystr :=
  let message := message_body side symbol price amount total grid_size in
  let with_retry :=
    if tuple_truthy retry_count then
      match unpack_pair (match retry_count with
                         | Some t => t
                         | None => []
                         end) with
      | Return (current, max_retries) =>
          Return (message ++ lit "🔄 尝试：" ++ str_of_Z current ++ lit "/"
                  ++ str_of_Z max_retries ++ lit "次" ++ [LF])
      | Raise e => Raise e
      end
    else Return message in
  match with_retry with
  | Return message => Return (message ++ lit "⏰ 时间：" ++ now)
  | Raise e => Raise e
  end.

End FormatTradeMessage.

(** ** debug_watcher *)

Definition logging_debug {W E} (msg : pystr) : M W E unit :=
  emit (Logging (mkLog DEBUG msg None)).

(** Reading from the world without changing it. *)
Definition observe {W E A} (f : W -> A) : M W E A :=
  fun st => (Return (f (fst st)), st).

(** [try: c  finally: f] *)
Definition try_finally {W E A} (c : M W E A) (f : M W E unit) : M W E A :=
  fun st =>
    match c st with
    | (r, st') =>
        match f st' with
        | (Return _, st'') => (r, st'')
        | (Raise e, st'') => (Raise e, st'')
        end
    end.

Section DebugWatcher.

Variables W E T : Type.

(** Python floats; subtraction and printing are taken as given:
    [format_3f x] is [f"{x:.3f}"], [format_mb n] is
    [f"{n/1024/1024:.2f}"] for an integer [n]. *)
Variable float : Type.
Variable fsub : float -> float -> float.
Variable format_3f : float -> pystr.
Variable format_mb : Z -> pystr.

(** [time.time()] and [psutil.virtual_memory().used] *)
Variable time_time : W -> float.
Variable memory_used : W -> Z.

Definition started (func_name : pystr) : LogRecord :=
  mkLog DEBUG (lit "[DEBUG] 开始执行 " ++ func_name) None.

Definition finished (func_name : pystr) (cost : float) (mem_used : Z)
  : LogRecord :=
  mkLog DEBUG
    (lit "[DEBUG] " ++ func_name ++ lit " 执行完成 | 耗时: "
     ++ format_3f cost ++ lit "s | 内存变化: " ++ format_mb mem_used
     ++ lit "MB")
    None.

(** [debug_watcher()(func)]: the [wrapper] the decorator returns;
    [func_name] is [func.__name__] and [func] the call
    [func( *args, **kwargs)]. *)
Definition debug_watcher (func_name : pystr) (func : M W E T) : M W E T :=
  start <- observe time_time ;;
  mem_before <- observe memory_used ;;
  logging_debug (lit "[DEBUG] 开始执行 " ++ func_name) ;;
  try_finally func
    (now <- observe time_time ;;
     let cost := fsub now start in
     mem_now <- observe memory_used ;;
     let mem_used := (mem_now - mem_before)%Z in
     logging_debug
       (lit "[DEBUG] " ++ func_name ++ lit " 执行完成 | 耗时: "
        ++ format_3f cost ++ lit "s | 内存变化: " ++ format_mb mem_used
        ++ lit "MB")).

End DebugWatcher.

(** ** LogConfig *)

(** [posixpath.join(a, b)] *)
Definition path_join (a b : pystr) : pystr :=
  if startswith (lit "/") b then b
  else
    match List.rev a with
    | [] => a ++ b
    | c :: _ => if (c =? 47)%N then a ++ b else a ++ lit "/" ++ b
    end.

(** [logging.Formatter(fmt, datefmt)] *)
Record Formatter := mkFormatter {
  fmt : pystr;
  datefmt : option pystr
}.

(** The handlers a logger can hold: the two kinds [setup_logger] creates,
    and whatever was installed before, told apart by a number. *)
Inductive Handler :=
| TimedRotatingFileHandler (filename when : pystr) (interval backupCount : Z)
    (encoding : pystr) (delay : bool) (formatter : option Formatter)
| StreamHandler (formatter : option Formatter)
| ForeignHandler (id : nat).

(** The root logger: its level and its handlers. *)
Record Logger := mkLogger {
  logger_level : level;
  handlers : list Handler
}.

Definition pystr_eq_dec (x y : pystr) : {x = y} + {x <> y} :=
  list_eq_dec N.eq_dec x y.

Definition option_dec {A} (dec : forall x y : A, {x = y} + {x <> y})
    (x y : option A) : {x = y} + {x <> y}.
Proof. decide equality. Defined.

Definition Formatter_eq_dec (x y : Formatter) : {x = y} + {x <> y}.
Proof.
  decide equality; [apply (option_dec pystr_eq_dec) | apply pystr_eq_dec].
Defined.

Definition Handler_eq_dec (x y : Handler) : {x = y} + {x <> y}.
Proof.
  decide equality;
    try apply (option_dec Formatter_eq_dec);
    try apply Bool.bool_dec;
    try apply Z.eq_dec;
    try apply pystr_eq_dec;
    try apply Nat.eq_dec.
Defined.

(** [hdlr in logger.handlers] *)
Fixpoint has_handler (hdlr : Handler) (hs : list Handler) : bool :=
  match hs with
  | [] => false
  | h :: hs' => if Handler_eq_dec hdlr h then true else has_handler hdlr hs'
  end.

(** [list.remove(hdlr)]: the first occurrence goes. *)
Fixpoint list_remove (hdlr : Handler) (hs : list Handler) : list Handler :=
  match hs with
  | [] => []
  | h :: hs' => if Handler_eq_dec hdlr h then hs' else h :: list_remove hdlr hs'
  end.

(** [Logger.setLevel], [Logger.removeHandler], [Logger.addHandler] *)
Definition setLevel (l : level) (logger : Logger) : Logger :=
  mkLogger l (handlers logger).

Definition removeHandler (hdlr : Handler) (logger : Logger) : Logger :=
  if has_handler hdlr (handlers logger)
  then mkLogger (logger_level logger) (list_remove hdlr (handlers logger))
  else logger.

Definition addHandler (hdlr : Handler) (logger : Logger) : Logger :=
  if has_handler hdlr (handlers logger)
  then logger
  else mkLogger (logger_level logger) (handlers logger ++ [hdlr]).

(** [Handler.setFormatter] *)
Definition setFormatter (f : Formatter) (hdlr : Handler) : Handler :=
  match hdlr with
  | TimedRotatingFileHandler filename when interval backupCount encoding
      delay _ =>
      TimedRotatingFileHandler filename when interval backupCount encoding
        delay (Some f)
  | StreamHandler _ => StreamHandler (Some f)
  | ForeignHandler id => ForeignHandler id
  end.

(** The numeric value of a level, and [Logger.isEnabledFor] on the root
    logger: a record goes to the handlers when its level is at least the
    logger's. *)
Definition levelno (l : level) : Z :=
  match l with
  | DEBUG => 10
  | INFO => 20
  | WARNING => 30
  | ERROR => 40
  end.

Definition isEnabledFor (logger : Logger) (l : level) : bool :=
  (levelno (logger_level logger) <=? levelno l)%Z.

(** The handlers a record logged on the root logger reaches. *)
Definition handled_by (logger : Logger) (r : LogRecord) : list Handler :=
  if isEnabledFor logger (levelname r) then handlers logger else [].

(** What [clean_old_logs] asks of the operating system, and what it
    prints. *)
Inductive os_call :=
| Stat (path : pystr)
| Remove (path : pystr)
| Print (text : pystr).

Module LogConfig.

Definition SINGLE_LOG : bool := true.
Definition BACKUP_DAYS : Z := 2.
Definition LOG_LEVEL : level := INFO.

Section Directory.

(** [LOG_DIR = os.path.dirname(__file__)] *)
Variable LOG_DIR : pystr.

Definition file_handler : Handler :=
  setFormatter
    (mkFormatter (lit "%(asctime)s [%(name)s] %(levelname)s: %(message)s")
                 (Some (lit "%Y-%m-%d %H:%M:%S")))
    (TimedRotatingFileHandler
       (path_join LOG_DIR (lit "trading_system.log"))
       (lit "midnight") 1 BACKUP_DAYS (lit "utf-8") true None).

Definition console_handler : Handler :=
  setFormatter (mkFormatter (lit "%(message)s") None) (StreamHandler None).

(** [setup_logger()], acting on the root logger. *)
Definition setup_logger (root : Logger) : Logger :=
  let logger := setLevel LOG_LEVEL root in
  let logger :=
    fold_left (fun logger handler => removeHandler handler logger)
              (handlers logger) logger in
  let logger := addHandler file_handler logger in
  addHandler console_handler logger.

Section OperatingSystem.

(** The file system and its clock.  Times are what [time.time()] and
    [st_mtime] return; comparing them and going back a number of seconds
    are taken as given. *)
Variables FS Time : Type.
Variable path_exists : pystr -> FS -> bool.
Variable listdir : pystr -> FS -> outcome exception (list pystr).
Variable time_time : FS -> Time.
Variable st_mtime : pystr -> FS -> outcome exception Time.
Variable os_remove : pystr -> FS -> outcome exception unit * FS.
Variable lt : Time -> Time -> bool.
Variable minus : Time -> Z -> Time.

(** [print(text)] writes to the standard output, which can fail. *)
Variable print : pystr -> FS -> outcome exception unit * FS.

Definition os_state : Type := FS * list os_call.

(** The loop [for fname in os.listdir(LOG_DIR)]. *)
Fixpoint sweep (now : Time) (names : list pystr) (st : os_state)
  : outcome exception unit * os_state :=
  match names with
  | [] => (Return tt, st)
  | fname :: names' =>
      if SINGLE_LOG && negb (pystr_eqb fname (lit "trading_system.log"))
      then sweep now names' st
      else
        let path := path_join LOG_DIR fname in
        let st := (fst st, snd st ++ [Stat path]) in
        match st_mtime path (fst st) with
        | Raise e => (Raise e, st)
        | Return mtime =>
            if lt mtime (minus now (BACKUP_DAYS * 86400)) then
              let st := (fst st, snd st ++ [Remove path]) in
              match os_remove path (fst st) with
              | (Return _, fs') => sweep now names' (fs', snd st)
              | (Raise e, fs') =>
                  let text :=
                    lit "删除旧日志失败 " ++ fname ++ lit ": " ++ str e in
                  let st := (fs', snd st ++ [Print text]) in
                  match print text (fst st) with
                  | (Return _, fs'') => sweep now names' (fs'', snd st)
                  | (Raise e', fs'') => (Raise e', (fs'', snd st))
                  end
              end
            else sweep now names' st
        end
  end.

(** [clean_old_logs()] *)
Definition clean_old_logs (st : os_state)
  : outcome exception unit * os_state :=
  if negb (path_exists LOG_DIR (fst st)) then (Return tt, st)
  else
    let now := time_time (fst st) in
    match listdir LOG_DIR (fst st) with
    | Raise e => (Raise e, st)
    | Return names => sweep now names st
    end.

End OperatingSystem.

End Directory.

End LogConfig.

(** ** Further observations *)

Definition level_eqb (a b : level) : bool :=
  match a, b with
  | DEBUG, DEBUG | INFO, INFO | WARNING, WARNING | ERROR, ERROR => true
  | _, _ => false
  end.

(** How many records of a level a trace holds. *)
Definition count_level (l : level) (tr : trace) : nat :=
  List.length (filter (fun r => level_eqb (levelname r) l) (logs tr)).

(** The seconds slept in all. *)
Definition backoff_total (tr : trace) : Z :=
  fold_right Z.add 0%Z (sleeps tr).

(** A run of the retry loop seen from the trace: failed attempts, each
    followed by its two seconds of backoff, then the last attempt. *)
Definition attempts_then (pieces : list trace) (last : trace) : trace :=
  flat_map (fun p => p ++ [Sleep 2]) pieces ++ last.

(** What one attempt of [safe_fetch] adds to the trace. *)
Definition fetch_attempt {T} (r : outcome exception T) : trace :=
  match r with
  | Return _ => [Await]
  | Raise e => fetch_failed e
  end.

(** What one attempt of [send_telegram_message] adds to the trace when
    the configuration is there. *)
Definition send_attempt {T} (tok chat title content : pystr)
    (r : outcome exception T) : trace :=
  match r with
  | Return _ => delivered tok chat title content
  | Raise e => delivery_failed tok chat title content e
  end.

(** A file system for the scenarios: the names in the log directory, each
    with its modification time in seconds and whether removing it is
    refused. *)
Module Disk.

Record file := mkFile {
  name : pystr;
  mtime : Z;
  locked : bool
}.

Definition disk : Type := option (list file).

Definition path_exists (dir : pystr) (d : disk) : bool :=
  match d with
  | Some _ => true
  | None => false
  end.

Definition listdir (dir : pystr) (d : disk)
  : outcome exception (list pystr) :=
  match d with
  | Some files => Return (map name files)
  | None => Raise (OtherException (lit "FileNotFoundError") dir)
  end.

Definition find_file (dir path : pystr) (d : disk) : option file :=
  match d with
  | Some files =>
      find (fun f => pystr_eqb (path_join dir (name f)) path) files
  | None => None
  end.

Definition st_mtime (dir path : pystr) (d : disk) : outcome exception Z :=
  match find_file dir path d with
  | Some f => Return (mtime f)
  | None => Raise (OtherException (lit "FileNotFoundError") path)
  end.

Definition os_remove (dir path : pystr) (d : disk)
  : outcome exception unit * disk :=
  match find_file dir path d with
  | Some f =>
      if locked f
      then (Raise (OtherException (lit "PermissionError") path), d)
      else
        (Return tt,
         option_map
           (filter (fun g => negb (pystr_eqb (path_join dir (name g)) path)))
           d)
  | None => (Raise (OtherException (lit "FileNotFoundError") path), d)
  end.

(** The clock reads [now]; printing succeeds. *)
Definition clean (dir : pystr) (now : Z) (d : disk) :=
  LogConfig.clean_old_logs dir path_exists listdir (fun _ => now)
    (st_mtime dir) (os_remove dir) Z.ltb Z.sub (fun _ d => (Return tt, d))
    (d, []).

End Disk.

(** A call to the operating system is about [path], or is a print. *)
Definition about_path (path : pystr) (c : os_call) : Prop :=
  match c with
  | Stat p | Remove p => p = path
  | Print _ => True
  end.

(** The calls that remove a file. *)
Definition removals (calls : list os_call) : list pystr :=
  flat_map (fun c => match c with Remove p => [p] | _ => [] end) calls.

(** The wait the specification gives after failed attempt [i] under the
    standard policy (max_delay 10 s, base_delay 2 s, multiplier 1):
    [min(max_delay, base_delay * multiplier ^ (i - 1))]. *)
Definition spec_delay (i : nat) : Z :=
  Z.min 10 (2 * 1 ^ (Z.of_nat i - 1)).

(** Failed attempts numbered from [i], each followed at once by the wait
    the specification gives for its number. *)
Fixpoint backed_off (i : nat) (pieces : list trace) : trace :=
  match pieces with
  | [] => []
  | p :: pieces' => p ++ [Sleep (spec_delay i)] ++ backed_off (S i) pieces'
  end.

(** * Properties *)

(** ** Strings *)

Example lit_default_title :
  lit "交易通知" = [20132; 26131; 36890; 30693]%N.
Proof. reflexivity. Qed.

Example str_of_nat_4500 : str_of_nat 4500 = lit "4500".
Proof. reflexivity. Qed.

Lemma startswith_spec (s t : pystr) :
  startswith s t = true <-> exists post, t = s ++ post.
Proof.
  revert t; induction s as [|c s IH]; intros t; simpl.
  - split; [intros _; now exists t | reflexivity].
  - destruct t as [|d t].
    + split; [discriminate | intros [post H]; discriminate].
    + rewrite andb_true_iff, N.eqb_eq, IH. split.
      * intros [-> [post ->]]. now exists post.
      * intros [post H]. injection H as -> ->. split; [reflexivity|now exists post].
Qed.

Lemma contains_spec (s t : pystr) :
  contains s t = true <-> mentions t s.
Proof.
  unfold mentions. induction t as [|d t IH].
  - simpl. rewrite orb_false_r, startswith_spec. split.
    + intros [post H]. now exists [], post.
    + intros [pre [post H]]. destruct pre; [now exists post | discriminate].
  - cbn [contains]. rewrite orb_true_iff, startswith_spec, IH. split.
    + intros [[post H] | [pre [post H]]].
      * now exists [], post.
      * exists (d :: pre), post. simpl. now rewrite H.
    + intros [pre [post H]]. destruct pre as [|c pre].
      * left. now exists post.
      * right. injection H as _ H. now exists pre, post.
Qed.

Lemma mentions_middle (a s b : pystr) : mentions (a ++ s ++ b) s.
Proof. now exists a, b. Qed.

Lemma mentions_suffix (a s : pystr) : mentions (a ++ s) s.
Proof. exists a, []. now rewrite app_nil_r. Qed.

(** ** Observations distribute over concatenation *)

Lemma invocations_app (a b : trace) :
  invocations (a ++ b) = invocations a + invocations b.
Proof. induction a as [|[] a IH]; simpl; auto. Qed.

Lemma sends_app (a b : trace) : sends (a ++ b) = sends a ++ sends b.
Proof. induction a as [|[] a IH]; simpl; auto. now rewrite IH. Qed.

Lemma sleeps_app (a b : trace) : sleeps (a ++ b) = sleeps a ++ sleeps b.
Proof. induction a as [|[] a IH]; simpl; auto. now rewrite IH. Qed.

Lemma logs_app (a b : trace) : logs (a ++ b) = logs a ++ logs b.
Proof. induction a as [|[] a IH]; simpl; auto. now rewrite IH. Qed.

Lemma logs_after_last_send_app (a : trace) bot chat_id text mode (b : trace) :
  sends b = [] ->
  logs_after_last_send (a ++ SendMessage bot chat_id text mode :: b) = logs b.
Proof.
  intros Hb. induction a as [|ev a IH]; simpl.
  - now rewrite Hb.
  - rewrite sends_app. simpl.
    destruct (sends a); simpl; exact IH.
Qed.

(** ** The waiting policy *)

Lemma policy_wait_early (i : nat) : i < 3 -> policy_wait i = 2%Z.
Proof.
  intros H. assert (i = 0 \/ i = 1 \/ i = 2) as [-> | [-> | ->]] by lia;
    reflexivity.
Qed.

Lemma policy_wait_capped (i : nat) : (policy_wait i <= 10)%Z.
Proof. unfold policy_wait, tenacity.wait_exponential. lia. Qed.

Lemma policy_stop_spec (i : nat) : policy_stop i = true <-> 3 <= i.
Proof. unfold policy_stop, tenacity.stop_after_attempt. apply Nat.leb_le. Qed.

(** ** The retry loop *)

Section RetryLoop.

Variables W T : Type.
Variable fn : M W exception T.

Let run := tenacity.retrying policy_stop policy_wait fn.

Lemma retrying_return fuel a st result st' :
  fn st = (Return result, st') ->
  run (S fuel) a st = Some (Return result, st').
Proof. intros H. unfold run. simpl. now rewrite H. Qed.

Lemma retrying_stop fuel a st e st' :
  fn st = (Raise e, st') -> 3 <= a ->
  run (S fuel) a st = Some (Raise (RetryError (mkFuture a e)), st').
Proof.
  intros H Ha. unfold run. simpl. rewrite H.
  now rewrite (proj2 (policy_stop_spec a) Ha).
Qed.

Lemma retrying_again fuel a st e w' tr' :
  fn st = (Raise e, (w', tr')) -> a < 3 ->
  run (S fuel) a st = run fuel (S a) (w', tr' ++ [Sleep (policy_wait a)]).
Proof.
  intros H Ha. unfold run. simpl. rewrite H.
  destruct (policy_stop a) eqn:E; [|reflexivity].
  apply policy_stop_spec in E. lia.
Qed.

(** The loop ends: three attempts at most are made, whatever [fn] does. *)
Lemma retrying_total fuel a st :
  3 - a < fuel -> exists r, run fuel a st = Some r.
Proof.
  revert a st. induction fuel as [|fuel IH]; intros a st Hf; [lia|].
  destruct (fn st) as [[result | e] [w' tr']] eqn:E.
  - eexists. apply retrying_return. exact E.
  - destruct (Nat.lt_ge_cases a 3) as [Ha | Ha].
    + rewrite (retrying_again fuel E Ha). apply IH. lia.
    + eexists. apply retrying_stop; [exact E | exact Ha].
Qed.

(** Everything the loop adds to the trace is added by an attempt or is a
    backoff sleep of an attempt before the third. *)
Lemma retrying_trace (P : trace -> Prop) :
  (forall st r st', fn st = (r, st') ->
                    exists new, snd st' = snd st ++ new /\ P new) ->
  (forall a b, P a -> P b -> P (a ++ b)) ->
  (forall a, a < 3 -> P [Sleep (policy_wait a)]) ->
  forall fuel a st r st',
    run fuel a st = Some (r, st') ->
    exists new, snd st' = snd st ++ new /\ P new.
Proof.
  intros Hfn Happ Hsleep.
  induction fuel as [|fuel IH]; intros a st r st' Hrun; [discriminate|].
  destruct (fn st) as [[result | e] [w1 tr1]] eqn:E.
  - rewrite (retrying_return fuel a E) in Hrun.
    injection Hrun as <- <-. exact (Hfn _ _ _ E).
  - destruct (Nat.lt_ge_cases a 3) as [Ha | Ha].
    + rewrite (retrying_again fuel E Ha) in Hrun.
      destruct (Hfn _ _ _ E) as [n1 [H1 P1]].
      destruct (IH _ _ _ _ Hrun) as [n2 [H2 P2]].
      simpl in H1, H2. subst tr1.
      exists (n1 ++ ([Sleep (policy_wait a)] ++ n2)). split.
      * rewrite H2. now rewrite <- !app_assoc.
      * apply Happ; [exact P1|]. apply Happ; [now apply Hsleep | exact P2].
    + rewrite (retrying_stop fuel E Ha) in Hrun.
      injection Hrun as <- <-. exact (Hfn _ _ _ E).
Qed.

(** A value the loop returns is a value an attempt returned. *)
Lemma retrying_returns fuel a st v st' :
  run fuel a st = Some (Return v, st') ->
  exists st0, fn st0 = (Return v, st').
Proof.
  revert a st. induction fuel as [|fuel IH]; intros a st Hrun; [discriminate|].
  destruct (fn st) as [[result | e] [w1 tr1]] eqn:E.
  - rewrite (retrying_return fuel a E) in Hrun.
    injection Hrun as <- <-. now exists st.
  - destruct (Nat.lt_ge_cases a 3) as [Ha | Ha].
    + rewrite (retrying_again fuel E Ha) in Hrun. exact (IH _ _ Hrun).
    + rewrite (retrying_stop fuel E Ha) in Hrun. discriminate.
Qed.

End RetryLoop.

(** ** Runs of the loop over an operation that fails a number of times *)

Section Attempts.

Variables W A T : Type.

(** The external operation an attempt performs, and the attempt itself,
    which adds [failed e] to the trace when the operation raises [e] and
    [succeeded] when it returns. *)
Variable op : W -> outcome exception A * W.
Variable fn : M W exception T.
Variable failed : exception -> trace.
Variable succeeded : trace.
Variable result_of : A -> T.

Hypothesis fn_raise : forall w tr e w',
  op w = (Raise e, w') -> fn (w, tr) = (Raise e, (w', tr ++ failed e)).
Hypothesis fn_return : forall w tr v w',
  op w = (Return v, w') ->
  fn (w, tr) = (Return (result_of v), (w', tr ++ succeeded)).

Let run := tenacity.retrying policy_stop policy_wait fn.

Lemma retry_succeeds es : forall a w0 tr fuel w' v w'',
  fails_through op w0 es w' ->
  op w' = (Return v, w'') ->
  1 <= a -> a + List.length es <= 3 -> List.length es < fuel ->
  run fuel a (w0, tr)
  = Some (Return (result_of v),
          (w'', tr ++ retried failed es ++ succeeded)).
Proof.
  induction es as [|e es IH]; intros a w0 tr fuel w' v w'' Hes Hv Ha Hlen Hf;
    simpl in *.
  - subst w'. destruct fuel as [|fuel]; [lia|].
    apply retrying_return. now apply fn_return.
  - destruct Hes as [w1 [H1 Hes]]. destruct fuel as [|fuel]; [lia|].
    unfold run.
    rewrite retrying_again with (1 := fn_raise tr H1) by lia.
    rewrite policy_wait_early by lia.
    rewrite (IH (S a) w1 _ fuel w' v w'' Hes Hv) by lia.
    now rewrite <- !app_assoc.
Qed.

Lemma retry_exhausted es : forall e a w0 tr fuel w',
  fails_through op w0 (es ++ [e]) w' ->
  1 <= a -> a + List.length es = 3 -> List.length es < fuel ->
  run fuel a (w0, tr)
  = Some (Raise (RetryError (mkFuture 3 e)),
          (w', tr ++ retried failed es ++ failed e)).
Proof.
  induction es as [|e0 es IH]; intros e a w0 tr fuel w' Hes Ha Hlen Hf;
    simpl in *.
  - destruct Hes as [w1 [H1 ->]]. destruct fuel as [|fuel]; [lia|].
    replace a with 3 by lia.
    apply retrying_stop; [now apply fn_raise | lia].
  - destruct Hes as [w1 [H1 Hes]]. destruct fuel as [|fuel]; [lia|].
    unfold run.
    rewrite retrying_again with (1 := fn_raise tr H1) by lia.
    rewrite policy_wait_early by lia.
    rewrite (IH e (S a) w1 _ fuel w' Hes) by lia.
    now rewrite <- !app_assoc.
Qed.

End Attempts.

(** ** One attempt of [safe_fetch] *)

Section SafeFetchAttempt.

Variables W T : Type.
Variable method : W -> outcome exception T * W.

Lemma safe_fetch_body_raise w tr e w' :
  method w = (Raise e, w') ->
  safe_fetch_body method (w, tr) = (Raise e, (w', tr ++ fetch_failed e)).
Proof.
  intros H. unfold safe_fetch_body, try_except, bind, await, emit.
  simpl. rewrite H. simpl. now rewrite <- app_assoc.
Qed.

Lemma safe_fetch_body_return w tr v w' :
  method w = (Return v, w') ->
  safe_fetch_body method (w, tr) = (Return v, (w', tr ++ [Await])).
Proof.
  intros H. unfold safe_fetch_body, try_except, bind, await, emit.
  simpl. now rewrite H.
Qed.

(** An attempt adds one call of [method] and, when it fails, one error
    record. *)
Lemma safe_fetch_body_trace st r st' :
  safe_fetch_body method st = (r, st') ->
  exists new, snd st' = snd st ++ new /\ sleeps new = [].
Proof.
  destruct st as [w tr]. intros H.
  destruct (method w) as [[v | e] w'] eqn:E.
  - rewrite (safe_fetch_body_return tr E) in H. injection H as <- <-.
    now exists [Await].
  - rewrite (safe_fetch_body_raise tr E) in H. injection H as <- <-.
    now exists (fetch_failed e).
Qed.

End SafeFetchAttempt.

(** ** One attempt of [send_telegram_message] *)

Section SendAttempt.

Variables W Message : Type.
Variables TELEGRAM_BOT_TOKEN TELEGRAM_CHAT_ID : option pystr.
Variable send_message :
  Bot -> pystr -> pystr -> ParseMode -> W -> outcome exception Message * W.
Variables content title : pystr.

Let body :=
  send_telegram_message_body TELEGRAM_BOT_TOKEN TELEGRAM_CHAT_ID
    send_message content title.

(** The call the bot receives when the configuration is there. *)
Let transport :=
  send_message (mkBot (the TELEGRAM_BOT_TOKEN)) (the TELEGRAM_CHAT_ID)
    (payload title content) MARKDOWN.

Let ready := configured TELEGRAM_BOT_TOKEN TELEGRAM_CHAT_ID.

Lemma body_unconfigured st :
  ~ ready ->
  body st = (Return PyNone,
             (fst st, snd st ++ [Logging missing_configuration])).
Proof.
  intros H. unfold body, send_telegram_message_body in *.
  unfold ready, configured in H.
  destruct (truthy TELEGRAM_BOT_TOKEN), (truthy TELEGRAM_CHAT_ID);
    try reflexivity.
  exfalso. apply H. now split.
Qed.

Lemma body_raise w tr e w' :
  ready ->
  transport w = (Raise e, w') ->
  body (w, tr)
  = (Raise e,
     (w', tr ++ delivery_failed (the TELEGRAM_BOT_TOKEN)
                  (the TELEGRAM_CHAT_ID) title content e)).
Proof.
  intros [Ht Hc] H.
  unfold body, send_telegram_message_body, transport in *.
  rewrite Ht, Hc. cbn [negb orb].
  unfold delivery_failed, attempt_prefix, delivery_failure, payload in *.
  unfold try_except, bind, bot_send_message, await, emit, logging_info,
    logging_warning, logging_error, ret, raise, bind, emit.
  destruct (max_length <? len (render title content)); cbn [fst snd];
    rewrite H; destruct (is_TelegramError e); cbn [fst snd];
    now rewrite <- ?app_assoc.
Qed.

Lemma body_return w tr m w' :
  ready ->
  transport w = (Return m, w') ->
  body (w, tr)
  = (Return PyNone,
     (w', tr ++ delivered (the TELEGRAM_BOT_TOKEN)
                  (the TELEGRAM_CHAT_ID) title content)).
Proof.
  intros [Ht Hc] H.
  unfold body, send_telegram_message_body, transport in *.
  rewrite Ht, Hc. cbn [negb orb].
  unfold delivered, attempt_prefix, payload in *.
  unfold try_except, bind, bot_send_message, await, emit, logging_info,
    logging_warning, logging_error, ret, raise, bind, emit.
  destruct (max_length <? len (render title content)); cbn [fst snd];
    rewrite H; cbn [fst snd]; now rewrite <- ?app_assoc.
Qed.

End SendAttempt.

(** ** Whole runs *)

Section FirstAttempt.

Variables W T : Type.
Variable fn : M W exception T.
Variable P : trace -> Prop.

Hypothesis fn_extends : forall st r st',
  fn st = (r, st') -> exists new, snd st' = snd st ++ new /\ P new.
Hypothesis P_nil : P [].
Hypothesis P_app : forall a b, P a -> P b -> P (a ++ b).
Hypothesis P_sleep : forall a, a < 3 -> P [Sleep (policy_wait a)].

(** A run that ends has made its first attempt, and only adds to what
    that attempt left in the trace. *)
Lemma retrying_first fuel a st r st' :
  tenacity.retrying policy_stop policy_wait fn fuel a st = Some (r, st') ->
  exists r1 st1 rest,
    fn st = (r1, st1) /\ snd st' = snd st1 ++ rest /\ P rest.
Proof.
  destruct fuel as [|fuel]; [discriminate|]. intros Hrun.
  destruct (fn st) as [[result | e] [w1 tr1]] eqn:E.
  - rewrite retrying_return with (1 := E) in Hrun.
    injection Hrun as <- <-.
    exists (Return result), (w1, tr1), []. now rewrite app_nil_r.
  - destruct (Nat.lt_ge_cases a 3) as [Ha | Ha].
    + rewrite retrying_again with (1 := E) in Hrun by exact Ha.
      destruct (retrying_trace fn P fn_extends P_app P_sleep _ _ _ Hrun)
        as [new [Hnew Pnew]].
      exists (Raise e), (w1, tr1), ([Sleep (policy_wait a)] ++ new).
      cbn [snd] in *. rewrite Hnew, <- app_assoc. repeat split.
      apply P_app; [now apply P_sleep | exact Pnew].
    + rewrite retrying_stop with (1 := E) in Hrun by exact Ha.
      injection Hrun as <- <-.
      exists (Raise e), (w1, tr1), []. now rewrite app_nil_r.
Qed.

End FirstAttempt.

(** What a run of [safe_fetch] adds to the trace: its sleeps last two
    seconds each. *)
Lemma safe_fetch_trace W T (method : W -> outcome exception T * W)
    fuel st r st' :
  safe_fetch method fuel st = Some (r, st') ->
  exists new, snd st' = snd st ++ new /\ Forall (fun d => d = 2%Z) (sleeps new).
Proof.
  unfold safe_fetch, tenacity.retry.
  apply retrying_trace
    with (P := fun new => Forall (fun d => d = 2%Z) (sleeps new)).
  - intros st0 r0 st0' H.
    destruct (safe_fetch_body_trace _ _ H) as [new [Hnew Hs]].
    exists new. rewrite Hs. auto.
  - intros a b Ha Hb. rewrite sleeps_app. apply Forall_app. auto.
  - intros a Ha. simpl. rewrite policy_wait_early by exact Ha. auto.
Qed.

Lemma sends_attempt_prefix tok chat title content :
  sends (attempt_prefix tok chat title content)
  = [(mkBot tok, chat, payload title content, MARKDOWN)].
Proof.
  unfold attempt_prefix.
  destruct (max_length <? len (render title content)); reflexivity.
Qed.

Lemma sleeps_attempt_prefix tok chat title content :
  sleeps (attempt_prefix tok chat title content) = [].
Proof.
  unfold attempt_prefix.
  destruct (max_length <? len (render title content)); reflexivity.
Qed.

Section SendRun.

Variables W Message : Type.
Variables TELEGRAM_BOT_TOKEN TELEGRAM_CHAT_ID : option pystr.
Variable send_message :
  Bot -> pystr -> pystr -> ParseMode -> W -> outcome exception Message * W.
Variables content title : pystr.

Hypothesis ready : configured TELEGRAM_BOT_TOKEN TELEGRAM_CHAT_ID.

Let body :=
  send_telegram_message_body TELEGRAM_BOT_TOKEN TELEGRAM_CHAT_ID
    send_message content title.

Let prefix :=
  attempt_prefix (the TELEGRAM_BOT_TOKEN) (the TELEGRAM_CHAT_ID) title content.

(** The one call the bot is ever asked to make. *)
Let the_call : Bot * pystr * pystr * ParseMode :=
  (mkBot (the TELEGRAM_BOT_TOKEN), the TELEGRAM_CHAT_ID,
   payload title content, MARKDOWN).

Let tidy (new : trace) : Prop :=
  Forall (fun s => s = the_call) (sends new)
  /\ Forall (fun d => d = 2%Z) (sleeps new).

Lemma sends_prefix : sends prefix = [the_call].
Proof. apply sends_attempt_prefix. Qed.

Lemma sleeps_prefix : sleeps prefix = [].
Proof. apply sleeps_attempt_prefix. Qed.

Lemma tidy_prefix_then r : tidy (prefix ++ [Logging r]).
Proof.
  unfold tidy. rewrite sends_app, sleeps_app, sends_prefix, sleeps_prefix.
  simpl. auto.
Qed.

(** An attempt announces itself, warns when the text is too long, calls
    the bot and logs one more record. *)
Lemma body_attempt st r st' :
  body st = (r, st') ->
  exists last, snd st' = snd st ++ prefix ++ [Logging last].
Proof.
  destruct st as [w tr]. intros H.
  destruct (send_message (mkBot (the TELEGRAM_BOT_TOKEN))
              (the TELEGRAM_CHAT_ID) (payload title content) MARKDOWN w)
    as [[m | e] w'] eqn:E.
  - unfold body in H.
    rewrite (body_return send_message content title w tr ready E) in H.
    injection H as <- <-. now exists confirmation.
  - unfold body in H.
    rewrite (body_raise send_message content title w tr ready E) in H.
    injection H as <- <-. now exists (delivery_failure e).
Qed.

(** Every run starts with an attempt; all calls to the bot carry the same
    arguments and all sleeps last two seconds. *)
Lemma send_run_trace fuel a st r st' :
  tenacity.retrying policy_stop policy_wait body fuel a st = Some (r, st') ->
  exists rest, snd st' = snd st ++ prefix ++ rest /\ tidy rest.
Proof.
  intros Hrun.
  destruct (retrying_first body tidy) with (5 := Hrun)
    as [r1 [st1 [rest [H1 [Hrest Prest]]]]].
  - intros st0 r0 st0' H. destruct (body_attempt _ H) as [last Hl].
    exists (prefix ++ [Logging last]). split; [exact Hl|].
    apply tidy_prefix_then.
  - split; constructor.
  - intros x y [Hx1 Hx2] [Hy1 Hy2]. unfold tidy.
    rewrite sends_app, sleeps_app. split; apply Forall_app; auto.
  - intros i Hi. unfold tidy. simpl.
    rewrite policy_wait_early by exact Hi. auto.
  - destruct (body_attempt _ H1) as [last Hl].
    exists ([Logging last] ++ rest). split.
    + rewrite Hrest, Hl. now rewrite <- !app_assoc.
    + destruct Prest as [P1 P2]. split; simpl; assumption.
Qed.

End SendRun.

(** ** Counting over retried attempts *)

Lemma invocations_retried es :
  invocations (retried fetch_failed es) = List.length es.
Proof. induction es as [|e es IH]; simpl; auto. Qed.

Lemma sleeps_retried failed es :
  (forall e, sleeps (failed e) = []) ->
  sleeps (retried failed es) = repeat 2%Z (List.length es).
Proof.
  intros H. induction es as [|e es IH]; simpl; auto.
  rewrite <- app_assoc, sleeps_app, H. simpl. now rewrite IH.
Qed.

Lemma sleeps_fetch_failed e : sleeps (fetch_failed e) = [].
Proof. reflexivity. Qed.

Lemma sends_delivery_failed tok chat title content e :
  sends (delivery_failed tok chat title content e)
  = [(mkBot tok, chat, payload title content, MARKDOWN)].
Proof.
  unfold delivery_failed. rewrite sends_app, sends_attempt_prefix. reflexivity.
Qed.

Lemma sleeps_delivery_failed tok chat title content e :
  sleeps (delivery_failed tok chat title content e) = [].
Proof.
  unfold delivery_failed. rewrite sleeps_app, sleeps_attempt_prefix. reflexivity.
Qed.

Lemma sends_delivered tok chat title content :
  sends (delivered tok chat title content)
  = [(mkBot tok, chat, payload title content, MARKDOWN)].
Proof. unfold delivered. rewrite sends_app, sends_attempt_prefix. reflexivity. Qed.

Lemma sleeps_delivered tok chat title content :
  sleeps (delivered tok chat title content) = [].
Proof.
  unfold delivered. rewrite sleeps_app, sleeps_attempt_prefix. reflexivity.
Qed.

Lemma sends_retried failed es call :
  (forall e, sends (failed e) = [call]) ->
  sends (retried failed es) = repeat call (List.length es).
Proof.
  intros H. induction es as [|e es IH]; simpl; auto.
  rewrite <- app_assoc, sends_app, H. simpl. now rewrite IH.
Qed.

Lemma logs_retried failed es :
  forall e, In e es ->
  forall r, In r (logs (failed e)) -> In r (logs (retried failed es)).
Proof.
  induction es as [|e0 es IH]; simpl; [tauto|].
  intros e [-> | H] r Hr; rewrite logs_app; apply in_or_app.
  - left. rewrite logs_app. apply in_or_app. now left.
  - right. eauto.
Qed.

Lemma logs_delivery_failed tok chat title content e :
  In (delivery_failure e) (logs (delivery_failed tok chat title content e)).
Proof.
  unfold delivery_failed. rewrite logs_app. apply in_or_app. right.
  simpl. auto.
Qed.

(** ** Runs of [safe_fetch] and [send_telegram_message] against an operation
       that fails a number of times *)

Lemma safe_fetch_succeeds W T (method : W -> outcome exception T * W)
    es w0 tr fuel w' v w'' :
  fails_through method w0 es w' ->
  method w' = (Return v, w'') ->
  List.length es < 3 -> 3 <= fuel ->
  safe_fetch method fuel (w0, tr)
  = Some (Return v, (w'', tr ++ retried fetch_failed es ++ [Await])).
Proof.
  intros Hes Hv Hlen Hfuel. unfold safe_fetch, tenacity.retry.
  apply (retry_succeeds method (safe_fetch_body method) fetch_failed [Await]
           (fun v => v)
           (fun w tr e w' => @safe_fetch_body_raise W T method w tr e w')
           (fun w tr v w' => @safe_fetch_body_return W T method w tr v w')
           es w0 tr w' Hes Hv); lia.
Qed.

Lemma safe_fetch_exhausted W T (method : W -> outcome exception T * W)
    e1 e2 e3 w0 tr fuel w3 :
  fails_through method w0 [e1; e2; e3] w3 ->
  3 <= fuel ->
  safe_fetch method fuel (w0, tr)
  = Some (Raise (RetryError (mkFuture 3 e3)),
          (w3, tr ++ retried fetch_failed [e1; e2] ++ fetch_failed e3)).
Proof.
  intros Hes Hfuel. unfold safe_fetch, tenacity.retry.
  apply retry_exhausted with (op := method) (es := [e1; e2]);
    [intros; now apply safe_fetch_body_raise | exact Hes | simpl; lia ..].
Qed.

Section SendAgainst.

Variables W Message : Type.
Variables TELEGRAM_BOT_TOKEN TELEGRAM_CHAT_ID : option pystr.
Variable send_message :
  Bot -> pystr -> pystr -> ParseMode -> W -> outcome exception Message * W.
Variables content title : pystr.

Hypothesis ready : configured TELEGRAM_BOT_TOKEN TELEGRAM_CHAT_ID.

Let tok := the TELEGRAM_BOT_TOKEN.
Let chat := the TELEGRAM_CHAT_ID.
Let transport := send_message (mkBot tok) chat (payload title content) MARKDOWN.
Let run :=
  send_telegram_message TELEGRAM_BOT_TOKEN TELEGRAM_CHAT_ID send_message
    content (Some title).

Lemma send_succeeds es w0 tr fuel w' m w'' :
  fails_through transport w0 es w' ->
  transport w' = (Return m, w'') ->
  List.length es < 3 -> 3 <= fuel ->
  run fuel (w0, tr)
  = Some (Return PyNone,
          (w'', tr ++ retried (delivery_failed tok chat title content) es
                   ++ delivered tok chat title content)).
Proof.
  intros Hes Hm Hlen Hfuel.
  unfold run, send_telegram_message, tenacity.retry.
  apply (retry_succeeds transport
           (send_telegram_message_body TELEGRAM_BOT_TOKEN TELEGRAM_CHAT_ID
              send_message content title)
           (delivery_failed tok chat title content)
           (delivered tok chat title content)
           (fun _ => PyNone)
           (fun w tr e w' => @body_raise W Message _ _ send_message content
                               title w tr e w' ready)
           (fun w tr v w' => @body_return W Message _ _ send_message content
                               title w tr v w' ready)
           es w0 tr w' Hes Hm); lia.
Qed.

Lemma send_exhausted e1 e2 e3 w0 tr fuel w3 :
  fails_through transport w0 [e1; e2; e3] w3 ->
  3 <= fuel ->
  run fuel (w0, tr)
  = Some (Raise (RetryError (mkFuture 3 e3)),
          (w3, tr ++ retried (delivery_failed tok chat title content) [e1; e2]
                  ++ delivery_failed tok chat title content e3)).
Proof.
  intros Hes Hfuel.
  unfold run, send_telegram_message, tenacity.retry.
  apply retry_exhausted with (op := transport) (es := [e1; e2]);
    [intros; now apply body_raise | exact Hes | simpl; lia ..].
Qed.

End SendAgainst.

(** * The claims *)

(** ** Exhausted retries *)

(** C1, as stated, fails: an operation that times out on every call makes
    [safe_fetch] call it three times and then raise tenacity's
    [RetryError], not the [TimeoutError] of the third call. *)
Lemma safe_fetch_does_not_surface_last_error :
  safe_fetch (Scenario.scripted (A:=unit) (Raise Scenario.timed_out)) 3
    ([], [])
  = Some (Raise (RetryError (mkFuture 3 Scenario.timed_out)),
          ([], retried fetch_failed [Scenario.timed_out; Scenario.timed_out]
               ++ fetch_failed Scenario.timed_out))
  /\ ~ (exists st,
         safe_fetch (Scenario.scripted (A:=unit) (Raise Scenario.timed_out)) 3
           ([], [])
         = Some (Raise (Exc Scenario.timed_out), st)).
Proof.
  split; [reflexivity|]. intros [st H]. vm_compute in H. discriminate.
Qed.

(** C1, amended: when the first three calls of the operation fail,
    [safe_fetch] makes exactly those three calls and raises [RetryError]
    whose [last_attempt] is attempt 3 with the exception of the third
    call; [send_telegram_message] does the same with the three calls to
    the bot. *)
Theorem exhausted_retry_raises_RetryError :
  (forall W T (method : W -> outcome exception T * W)
          w0 w3 e1 e2 e3 tr fuel,
      fails_through method w0 [e1; e2; e3] w3 ->
      3 <= fuel ->
      exists new,
        safe_fetch method fuel (w0, tr)
        = Some (Raise (RetryError (mkFuture 3 e3)), (w3, tr ++ new))
        /\ invocations new = 3)
  /\
  (forall W Message bot_token chat_id
          (send_message : Bot -> pystr -> pystr -> ParseMode -> W ->
                          outcome exception Message * W)
          content title w0 w3 e1 e2 e3 tr fuel,
      configured bot_token chat_id ->
      fails_through
        (send_message (mkBot (the bot_token)) (the chat_id)
           (payload title content) MARKDOWN) w0 [e1; e2; e3] w3 ->
      3 <= fuel ->
      exists new,
        send_telegram_message bot_token chat_id send_message content
          (Some title) fuel (w0, tr)
        = Some (Raise (RetryError (mkFuture 3 e3)), (w3, tr ++ new))
        /\ List.length (sends new) = 3).
Proof.
  split.
  - intros W T method w0 w3 e1 e2 e3 tr fuel Hes Hfuel.
    eexists. split; [apply safe_fetch_exhausted; eassumption|].
    rewrite invocations_app, invocations_retried. reflexivity.
  - intros W Message bot_token chat_id send_message content title
           w0 w3 e1 e2 e3 tr fuel Hready Hes Hfuel.
    eexists. split; [apply send_exhausted; eassumption|].
    rewrite sends_app, sends_delivery_failed.
    rewrite sends_retried
      with (call := (mkBot (the bot_token), the chat_id,
                     payload title content, MARKDOWN))
      by (intros; apply sends_delivery_failed).
    reflexivity.
Qed.

Lemma exhausted_retry_raises_RetryError_witness :
  exists new,
    safe_fetch (Scenario.scripted (A:=unit) (Raise Scenario.timed_out)) 3
      ([], [])
    = Some (Raise (RetryError (mkFuture 3 Scenario.timed_out)),
            ([], [] ++ new))
    /\ invocations new = 3.
Proof.
  apply (proj1 exhausted_retry_raises_RetryError _ _ _ [] []
           Scenario.timed_out Scenario.timed_out Scenario.timed_out [] 3).
  - simpl. repeat (eexists; split; [reflexivity|]). reflexivity.
  - lia.
Defined.

(** C2, as stated, fails: when the bot cannot be reached on any of the
    three attempts, [send_telegram_message] raises [RetryError] to its
    caller; it does not return. *)
Lemma exhausted_delivery_raises :
  (exists tr,
     send_telegram_message Scenario.bot_token Scenario.chat_id
       Scenario.unreachable (lit "BNB/USDT 买入") None 3 ([], [])
     = Some (Raise (RetryError (mkFuture 3 Scenario.chat_not_found)),
             ([], tr)))
  /\ ~ (exists v st,
         send_telegram_message Scenario.bot_token Scenario.chat_id
           Scenario.unreachable (lit "BNB/USDT 买入") None 3 ([], [])
         = Some (Return v, st)).
Proof.
  split.
  - eexists. vm_compute. reflexivity.
  - intros [v [st H]]. vm_compute in H. discriminate.
Qed.

(** C2, amended: when the three calls to the bot fail,
    [send_telegram_message] logs each failure at error severity and then
    raises [RetryError] around the third failure; it does not return
    normally. *)
Theorem exhausted_delivery_is_logged_and_raised
    W Message bot_token chat_id
    (send_message : Bot -> pystr -> pystr -> ParseMode -> W ->
                    outcome exception Message * W)
    content title w0 w3 e1 e2 e3 tr fuel :
  configured bot_token chat_id ->
  fails_through
    (send_message (mkBot (the bot_token)) (the chat_id)
       (payload title content) MARKDOWN) w0 [e1; e2; e3] w3 ->
  3 <= fuel ->
  exists new,
    send_telegram_message bot_token chat_id send_message content
      (Some title) fuel (w0, tr)
    = Some (Raise (RetryError (mkFuture 3 e3)), (w3, tr ++ new))
    /\ (forall e, In e [e1; e2; e3] ->
                  In (delivery_failure e) (logs new)
                  /\ levelname (delivery_failure e) = ERROR)
    /\ (forall v st,
          send_telegram_message bot_token chat_id send_message content
            (Some title) fuel (w0, tr)
          <> Some (Return v, st)).
Proof.
  intros Hready Hes Hfuel.
  pose proof (send_exhausted send_message content title Hready tr Hes Hfuel)
    as Hrun.
  eexists. split; [exact Hrun|]. split.
  - intros e He. split; [|destruct e; reflexivity].
    rewrite logs_app. apply in_or_app.
    destruct He as [<- | [<- | [<- | []]]].
    + left. eapply logs_retried; [left; reflexivity|].
      apply logs_delivery_failed.
    + left. eapply logs_retried; [right; left; reflexivity|].
      apply logs_delivery_failed.
    + right. apply logs_delivery_failed.
  - intros v st H. rewrite Hrun in H. discriminate.
Qed.

Lemma exhausted_delivery_is_logged_and_raised_witness :
  exists new,
    send_telegram_message Scenario.bot_token Scenario.chat_id
      Scenario.unreachable (lit "BNB/USDT 买入") (Some default_title) 3
      ([], [])
    = Some (Raise (RetryError (mkFuture 3 Scenario.chat_not_found)),
            ([], [] ++ new))
    /\ (forall e,
          In e [Scenario.chat_not_found; Scenario.chat_not_found;
                Scenario.chat_not_found] ->
          In (delivery_failure e) (logs new)
          /\ levelname (delivery_failure e) = ERROR)
    /\ (forall v st,
          send_telegram_message Scenario.bot_token Scenario.chat_id
            Scenario.unreachable (lit "BNB/USDT 买入") (Some default_title)
            3 ([], [])
          <> Some (Return v, st)).
Proof.
  apply (@exhausted_delivery_is_logged_and_raised _ unit
           Scenario.bot_token Scenario.chat_id Scenario.unreachable
           (lit "BNB/USDT 买入") default_title [] []).
  - split; reflexivity.
  - simpl. repeat (eexists; split; [reflexivity|]). reflexivity.
  - lia.
Defined.

(** ** The message and its size *)

Lemma texts_app (a b : trace) : texts (a ++ b) = texts a ++ texts b.
Proof. unfold texts. now rewrite sends_app, map_app. Qed.

Lemma texts_attempt_prefix tok chat title content :
  texts (attempt_prefix tok chat title content) = [payload title content].
Proof. unfold texts. now rewrite sends_attempt_prefix. Qed.

Lemma payload_short title content :
  len (render title content) <= max_length ->
  payload title content = render title content.
Proof.
  intros H. unfold payload.
  destruct (Nat.ltb_spec max_length (len (render title content)));
    [lia | reflexivity].
Qed.

Lemma payload_long title content :
  max_length < len (render title content) ->
  payload title content
  = slice_to max_length (render title content) ++ lit "...".
Proof.
  intros H. unfold payload.
  destruct (Nat.ltb_spec max_length (len (render title content)));
    [reflexivity | lia].
Qed.

Lemma len_truncated (s : pystr) :
  max_length < len s -> len (slice_to max_length s ++ lit "...") = 4003.
Proof.
  intros H. unfold len, slice_to in *. rewrite length_app, firstn_length_le by lia.
  reflexivity.
Qed.

Lemma warning_in_prefix tok chat title content :
  max_length < len (render title content) ->
  In (too_long_warning (len (render title content)))
     (logs (attempt_prefix tok chat title content)).
Proof.
  intros H. unfold attempt_prefix.
  destruct (Nat.ltb_spec max_length (len (render title content))); [|lia].
  simpl. auto.
Qed.

(** C3: with the configuration in place, every text handed to the bot is
    the rendered text when it has at most 4000 characters, and otherwise
    its first 4000 characters followed by three dots, 4003 characters in
    all, with a warning logged that carries the original length. *)
Theorem size_policy W Message bot_token chat_id
    (send_message : Bot -> pystr -> pystr -> ParseMode -> W ->
                    outcome exception Message * W)
    content title fuel w tr :
  configured bot_token chat_id ->
  3 <= fuel ->
  exists r w' new,
    send_telegram_message bot_token chat_id send_message content
      (Some title) fuel (w, tr)
    = Some (r, (w', tr ++ new))
    /\ texts new <> []
    /\ (len (render title content) <= 4000 ->
        Forall (fun text => text = render title content) (texts new))
    /\ (4000 < len (render title content) ->
        Forall (fun text =>
                  text = slice_to 4000 (render title content) ++ lit "...")
               (texts new)
        /\ len (slice_to 4000 (render title content) ++ lit "...") = 4003
        /\ In (too_long_warning (len (render title content))) (logs new)
        /\ levelname (too_long_warning (len (render title content)))
           = WARNING
        /\ mentions
             (message (too_long_warning (len (render title content))))
             (str_of_nat (len (render title content)))).
Proof.
  intros Hready Hfuel.
  destruct (@retrying_total _ _
              (send_telegram_message_body bot_token chat_id send_message
                 content title) fuel 1 (w, tr)) as [[r [w' tr']] Hrun];
    [lia|].
  destruct (send_run_trace send_message content title Hready _ _ _ Hrun)
    as [rest [Htr [Hsends _]]].
  cbn [snd] in Htr. subst tr'.
  exists r, w', (attempt_prefix (the bot_token) (the chat_id) title content
                 ++ rest).
  assert (Hall : Forall (fun text => text = payload title content)
                   (texts (attempt_prefix (the bot_token) (the chat_id)
                             title content ++ rest))).
  { rewrite texts_app, texts_attempt_prefix. constructor; [reflexivity|].
    unfold texts. apply Forall_map.
    eapply Forall_impl; [|exact Hsends]. now intros call ->. }
  split; [exact Hrun|]. split.
  { rewrite texts_app, texts_attempt_prefix. discriminate. }
  split.
  - intros Hshort. rewrite <- (payload_short Hshort).
    exact Hall.
  - intros Hlong. change 4000 with max_length in Hlong |- *.
    rewrite <- (payload_long Hlong).
    split; [exact Hall|]. split.
    { rewrite (payload_long Hlong). now apply len_truncated. }
    split.
    { rewrite logs_app. apply in_or_app. left. now apply warning_in_prefix. }
    split; [reflexivity|].
    unfold too_long_warning. cbn [message]. apply mentions_middle.
Qed.

Lemma size_policy_witness :
  exists r w' new,
    send_telegram_message Scenario.bot_token Scenario.chat_id
      Scenario.flaky Scenario.long_body (Some default_title) 3
      ([Raise Scenario.chat_not_found], [])
    = Some (r, (w', [] ++ new))
    /\ texts new <> []
    /\ (len (render default_title Scenario.long_body) <= 4000 ->
        Forall (fun text => text = render default_title Scenario.long_body)
               (texts new))
    /\ (4000 < len (render default_title Scenario.long_body) ->
        Forall (fun text =>
                  text = slice_to 4000
                           (render default_title Scenario.long_body)
                         ++ lit "...")
               (texts new)
        /\ len (slice_to 4000 (render default_title Scenario.long_body)
                ++ lit "...") = 4003
        /\ In (too_long_warning
                 (len (render default_title Scenario.long_body)))
              (logs new)
        /\ levelname (too_long_warning
                        (len (render default_title Scenario.long_body)))
           = WARNING
        /\ mentions
             (message (too_long_warning
                         (len (render default_title Scenario.long_body))))
             (str_of_nat (len (render default_title Scenario.long_body)))).
Proof.
  apply (@size_policy _ unit Scenario.bot_token Scenario.chat_id
           Scenario.flaky Scenario.long_body default_title 3
           [Raise Scenario.chat_not_found] []).
  - split; reflexivity.
  - lia.
Defined.

Example long_body_is_cut :
  len (render default_title Scenario.long_body) = 4508
  /\ len (payload default_title Scenario.long_body) = 4003
  /\ message (too_long_warning (len (render default_title Scenario.long_body)))
     = lit "消息过长 (4508 chars)，将被截断.".
Proof. vm_compute. repeat split. Qed.

(** ** Missing configuration *)

Lemma unconfigured_spec bot_token chat_id :
  truthy bot_token = false \/ truthy chat_id = false <->
  ~ configured bot_token chat_id.
Proof.
  unfold configured.
  destruct (truthy bot_token), (truthy chat_id); intuition congruence.
Qed.

Lemma configured_dec bot_token chat_id :
  {configured bot_token chat_id} + {~ configured bot_token chat_id}.
Proof.
  unfold configured.
  destruct (truthy bot_token), (truthy chat_id);
    (left; split; reflexivity) || (right; intros [? ?]; discriminate).
Qed.

Lemma missing_configuration_is_no_delivery_failure e :
  missing_configuration <> delivery_failure e.
Proof.
  destruct e; intros H; apply (f_equal message) in H;
    cbv in H; discriminate.
Qed.

Lemma send_unconfigured W Message bot_token chat_id
    (send_message : Bot -> pystr -> pystr -> ParseMode -> W ->
                    outcome exception Message * W)
    content title fuel a st :
  ~ configured bot_token chat_id ->
  tenacity.retrying policy_stop policy_wait
    (send_telegram_message_body bot_token chat_id send_message content title)
    (S fuel) a st
  = Some (Return PyNone, (fst st, snd st ++ [Logging missing_configuration])).
Proof.
  intros H. apply retrying_return. now apply body_unconfigured.
Qed.

(** C4: when the bot token or the chat id is missing,
    [send_telegram_message] logs the configuration error and returns at
    once: the bot is not called, nothing is retried, no backoff is slept,
    and the record logged is not that of a failed delivery. *)
Theorem missing_configuration_is_a_no_op W Message bot_token chat_id
    (send_message : Bot -> pystr -> pystr -> ParseMode -> W ->
                    outcome exception Message * W)
    content title fuel w tr :
  truthy bot_token = false \/ truthy chat_id = false ->
  1 <= fuel ->
  exists new,
    send_telegram_message bot_token chat_id send_message content title
      fuel (w, tr)
    = Some (Return PyNone, (w, tr ++ new))
    /\ sends new = []
    /\ sleeps new = []
    /\ logs new = [missing_configuration]
    /\ levelname missing_configuration = ERROR
    /\ (forall e, missing_configuration <> delivery_failure e).
Proof.
  intros Habsent Hfuel. apply unconfigured_spec in Habsent.
  destruct fuel as [|fuel]; [lia|].
  exists [Logging missing_configuration]. split.
  - unfold send_telegram_message, tenacity.retry.
    now rewrite send_unconfigured.
  - repeat split. apply missing_configuration_is_no_delivery_failure.
Qed.

Lemma missing_configuration_is_a_no_op_witness :
  exists new,
    send_telegram_message None Scenario.chat_id Scenario.unreachable
      (lit "BNB/USDT 买入") None 3 ([], [])
    = Some (Return PyNone, ([], [] ++ new))
    /\ sends new = []
    /\ sleeps new = []
    /\ logs new = [missing_configuration]
    /\ levelname missing_configuration = ERROR
    /\ (forall e, missing_configuration <> delivery_failure e).
Proof.
  apply (@missing_configuration_is_a_no_op _ unit None Scenario.chat_id
           Scenario.unreachable (lit "BNB/USDT 买入") None 3 [] []).
  - left. reflexivity.
  - lia.
Defined.

(** ** Backoff *)

Lemma send_trace W Message bot_token chat_id
    (send_message : Bot -> pystr -> pystr -> ParseMode -> W ->
                    outcome exception Message * W)
    content title fuel st r st' :
  send_telegram_message bot_token chat_id send_message content title fuel st
  = Some (r, st') ->
  exists new,
    snd st' = snd st ++ new /\ Forall (fun d => d = 2%Z) (sleeps new).
Proof.
  unfold send_telegram_message, tenacity.retry.
  set (t := match title with Some t => t | None => default_title end).
  intros Hrun. destruct (configured_dec bot_token chat_id) as [Hc | Hc].
  - destruct (send_run_trace send_message content t Hc _ _ _ Hrun)
      as [rest [Htr [_ Hsleeps]]].
    eexists. split; [exact Htr|].
    rewrite sleeps_app, sleeps_attempt_prefix. exact Hsleeps.
  - destruct fuel as [|fuel]; [discriminate|].
    rewrite send_unconfigured in Hrun by exact Hc.
    injection Hrun as <- <-. eexists. split; [reflexivity|]. constructor.
Qed.

Lemma spec_delay_is_two i : 1 <= i -> spec_delay i = 2%Z.
Proof. intros H. unfold spec_delay. rewrite Z.pow_1_l by lia. reflexivity. Qed.

Lemma backed_off_retried (failed : exception -> trace) es : forall i,
  1 <= i -> backed_off i (map failed es) = retried failed es.
Proof.
  induction es as [|e es IH]; intros i Hi; [reflexivity|].
  cbn [map backed_off]. unfold retried in *. cbn [flat_map].
  rewrite spec_delay_is_two by exact Hi. rewrite IH by lia.
  now rewrite <- app_assoc.
Qed.

(** C5: under the policy of the two decorators (three attempts,
    [wait_exponential(multiplier=1, min=2, max=10)]), the delay after a
    failed attempt [i] that is followed by another attempt is
    [min(10, 2 * 1 ^ (i - 1))], that is two seconds, and no delay the
    policy computes exceeds ten seconds.  The delay is applied: in a run
    of [safe_fetch] or of [send_telegram_message] each failed attempt but
    the third is followed at once by that wait and then by the next
    attempt, and nothing is slept after the attempt that ends the run,
    whether it succeeds or is the third failure.  Besides, every sleep
    of every run lasts two seconds. *)
Theorem backoff_is_two_seconds :
  (forall i, 1 <= i < 3 ->
             policy_wait i = Z.min 10 (2 * 1 ^ (Z.of_nat i - 1))
             /\ policy_wait i = spec_delay i
             /\ policy_wait i = 2%Z)
  /\ (forall i, (policy_wait i <= 10)%Z)
  /\ (forall W T (method : W -> outcome exception T * W)
             w0 es w' v w'' tr fuel,
         fails_through method w0 es w' ->
         method w' = (Return v, w'') ->
         List.length es < 3 ->
         3 <= fuel ->
         safe_fetch method fuel (w0, tr)
         = Some (Return v,
                 (w'', tr ++ backed_off 1 (map fetch_failed es) ++ [Await])))
  /\ (forall W T (method : W -> outcome exception T * W)
             w0 e1 e2 e3 w3 tr fuel,
         fails_through method w0 [e1; e2; e3] w3 ->
         3 <= fuel ->
         safe_fetch method fuel (w0, tr)
         = Some (Raise (RetryError (mkFuture 3 e3)),
                 (w3, tr ++ backed_off 1 (map fetch_failed [e1; e2])
                         ++ fetch_failed e3)))
  /\ (forall W Message bot_token chat_id
             (send_message : Bot -> pystr -> pystr -> ParseMode -> W ->
                             outcome exception Message * W)
             content title w0 es w' m w'' tr fuel,
         configured bot_token chat_id ->
         fails_through
           (send_message (mkBot (the bot_token)) (the chat_id)
              (payload title content) MARKDOWN) w0 es w' ->
         send_message (mkBot (the bot_token)) (the chat_id)
           (payload title content) MARKDOWN w' = (Return m, w'') ->
         List.length es < 3 ->
         3 <= fuel ->
         send_telegram_message bot_token chat_id send_message content
           (Some title) fuel (w0, tr)
         = Some (Return PyNone,
                 (w'', tr ++ backed_off 1
                               (map (delivery_failed (the bot_token)
                                       (the chat_id) title content) es)
                          ++ delivered (the bot_token) (the chat_id)
                               title content)))
  /\ (forall W Message bot_token chat_id
             (send_message : Bot -> pystr -> pystr -> ParseMode -> W ->
                             outcome exception Message * W)
             content title w0 e1 e2 e3 w3 tr fuel,
         configured bot_token chat_id ->
         fails_through
           (send_message (mkBot (the bot_token)) (the chat_id)
              (payload title content) MARKDOWN) w0 [e1; e2; e3] w3 ->
         3 <= fuel ->
         send_telegram_message bot_token chat_id send_message content
           (Some title) fuel (w0, tr)
         = Some (Raise (RetryError (mkFuture 3 e3)),
                 (w3, tr ++ backed_off 1
                              (map (delivery_failed (the bot_token)
                                      (the chat_id) title content) [e1; e2])
                         ++ delivery_failed (the bot_token) (the chat_id)
                              title content e3)))
  /\ (forall W T (method : W -> outcome exception T * W) fuel st r st',
         safe_fetch method fuel st = Some (r, st') ->
         exists new,
           snd st' = snd st ++ new
           /\ Forall (fun seconds => seconds = 2%Z) (sleeps new))
  /\ (forall W Message bot_token chat_id
             (send_message : Bot -> pystr -> pystr -> ParseMode -> W ->
                             outcome exception Message * W)
             content title fuel st r st',
         send_telegram_message bot_token chat_id send_message content title
           fuel st
         = Some (r, st') ->
         exists new,
           snd st' = snd st ++ new
           /\ Forall (fun seconds => seconds = 2%Z) (sleeps new)).
Proof.
  split; [|split; [|split; [|split; [|split; [|split; [|split]]]]]].
  - intros i Hi. rewrite policy_wait_early by lia.
    rewrite spec_delay_is_two by lia.
    rewrite Z.pow_1_l by lia. repeat split.
  - apply policy_wait_capped.
  - intros W T method w0 es w' v w'' tr fuel Hes Hv Hlen Hfuel.
    rewrite backed_off_retried by lia.
    now apply safe_fetch_succeeds with (w' := w').
  - intros W T method w0 e1 e2 e3 w3 tr fuel Hes Hfuel.
    rewrite backed_off_retried by lia.
    now apply safe_fetch_exhausted.
  - intros W Message bot_token chat_id send_message content title
           w0 es w' m w'' tr fuel Hready Hes Hm Hlen Hfuel.
    rewrite backed_off_retried by lia.
    now apply send_succeeds with (w' := w') (m := m).
  - intros W Message bot_token chat_id send_message content title
           w0 e1 e2 e3 w3 tr fuel Hready Hes Hfuel.
    rewrite backed_off_retried by lia.
    now apply send_exhausted.
  - intros. eapply safe_fetch_trace. eassumption.
  - intros. eapply send_trace. eassumption.
Qed.

Lemma backoff_is_two_seconds_witness :
  (1 <= 2 < 3 /\ policy_wait 2 = Z.min 10 (2 * 1 ^ (Z.of_nat 2 - 1))
   /\ policy_wait 2 = spec_delay 2 /\ policy_wait 2 = 2%Z)
  /\ safe_fetch (Scenario.scripted (Return 7)) 3
       ([Raise Scenario.timed_out; Raise Scenario.chat_not_found], [])
     = Some (Return 7,
             ([], [] ++ backed_off 1
                          (map fetch_failed
                             [Scenario.timed_out; Scenario.chat_not_found])
                     ++ [Await])).
Proof.
  split.
  - split; [lia|]. apply (proj1 backoff_is_two_seconds 2). lia.
  - apply (proj1 (proj2 (proj2 backoff_is_two_seconds)) _ _
             (Scenario.scripted (Return 7))
             [Raise Scenario.timed_out; Raise Scenario.chat_not_found]
             [Scenario.timed_out; Scenario.chat_not_found] [] 7 [] [] 3).
    + simpl. repeat (eexists; split; [reflexivity|]). reflexivity.
    + reflexivity.
    + simpl. lia.
    + lia.
Defined.

Example two_failures_two_waits :
  safe_fetch (Scenario.scripted (Return 7)) 3
    ([Raise Scenario.timed_out; Raise Scenario.chat_not_found], [])
  = Some (Return 7,
          ([], [Await; Logging (fetch_failure Scenario.timed_out); Sleep 2;
                Await; Logging (fetch_failure Scenario.chat_not_found);
                Sleep 2;
                Await])).
Proof. reflexivity. Qed.

Example policy_wait_values :
  map policy_wait [1; 2; 3; 4; 5; 6] = [2; 2; 4; 8; 10; 10]%Z.
Proof. reflexivity. Qed.

(** ** Success on a later attempt *)

(** C6: when the operation fails on its first [k - 1] calls and returns on
    call [k <= 3], the retry wrapper makes exactly [k] calls, sleeps only
    between them (the trace ends with the successful attempt, nothing is
    slept after it), and returns what the attempt returned: the
    operation's value for [safe_fetch], [None] for
    [send_telegram_message]. *)
Theorem success_on_attempt_k :
  (forall W T (method : W -> outcome exception T * W)
          w0 es w' v w'' tr fuel,
      fails_through method w0 es w' ->
      method w' = (Return v, w'') ->
      List.length es < 3 ->
      3 <= fuel ->
      exists before,
        safe_fetch method fuel (w0, tr)
        = Some (Return v, (w'', tr ++ before ++ [Await]))
        /\ invocations (before ++ [Await]) = S (List.length es)
        /\ sleeps (before ++ [Await]) = sleeps before
        /\ sleeps before = repeat 2%Z (List.length es))
  /\
  (forall W Message bot_token chat_id
          (send_message : Bot -> pystr -> pystr -> ParseMode -> W ->
                          outcome exception Message * W)
          content title w0 es w' m w'' tr fuel,
      configured bot_token chat_id ->
      fails_through
        (send_message (mkBot (the bot_token)) (the chat_id)
           (payload title content) MARKDOWN) w0 es w' ->
      send_message (mkBot (the bot_token)) (the chat_id)
        (payload title content) MARKDOWN w' = (Return m, w'') ->
      List.length es < 3 ->
      3 <= fuel ->
      exists before,
        let last := delivered (the bot_token) (the chat_id) title content in
        send_telegram_message bot_token chat_id send_message content
          (Some title) fuel (w0, tr)
        = Some (Return PyNone, (w'', tr ++ before ++ last))
        /\ List.length (sends (before ++ last)) = S (List.length es)
        /\ sleeps (before ++ last) = sleeps before
        /\ sleeps before = repeat 2%Z (List.length es)).
Proof.
  split.
  - intros W T method w0 es w' v w'' tr fuel Hes Hv Hlen Hfuel.
    exists (retried fetch_failed es). split.
    + now apply safe_fetch_succeeds with (w' := w').
    + rewrite invocations_app, invocations_retried, sleeps_app.
      rewrite (sleeps_retried fetch_failed es sleeps_fetch_failed).
      simpl. rewrite app_nil_r. repeat split. lia.
  - intros W Message bot_token chat_id send_message content title
           w0 es w' m w'' tr fuel Hready Hes Hm Hlen Hfuel.
    exists (retried (delivery_failed (the bot_token) (the chat_id)
                       title content) es).
    cbv zeta. split.
    + now apply send_succeeds with (w' := w') (m := m).
    + rewrite sends_app, sleeps_app, sends_delivered, sleeps_delivered.
      rewrite sends_retried
        with (call := (mkBot (the bot_token), the chat_id,
                       payload title content, MARKDOWN))
        by (intros; apply sends_delivery_failed).
      rewrite sleeps_retried by (intros; apply sleeps_delivery_failed).
      rewrite length_app, repeat_length, app_nil_r. simpl.
      repeat split. lia.
Qed.

Lemma success_on_attempt_k_witness :
  exists before,
    safe_fetch (Scenario.scripted (Return 7)) 3
      ([Raise Scenario.timed_out; Raise Scenario.chat_not_found], [])
    = Some (Return 7, ([], [] ++ before ++ [Await]))
    /\ invocations (before ++ [Await]) = 3
    /\ sleeps (before ++ [Await]) = sleeps before
    /\ sleeps before = [2; 2]%Z.
Proof.
  apply (proj1 success_on_attempt_k _ _ (Scenario.scripted (Return 7))
           [Raise Scenario.timed_out; Raise Scenario.chat_not_found]
           [Scenario.timed_out; Scenario.chat_not_found] [] 7 [] [] 3).
  - simpl. repeat (eexists; split; [reflexivity|]). reflexivity.
  - reflexivity.
  - simpl. lia.
  - lia.
Defined.

(** ** Failed attempts *)

(** C7: a failed call to the bot is logged at error severity, with
    [str(e)] in the message; for an exception that is not a
    [TelegramError] the record also carries the exception and its
    traceback.  In both cases the attempt re-raises the exception, and the
    retry loop treats it the same whatever its kind: before the third
    attempt it sleeps and tries again, at the third it gives up. *)
Theorem failed_attempt_is_logged_and_retried W Message bot_token chat_id
    (send_message : Bot -> pystr -> pystr -> ParseMode -> W ->
                    outcome exception Message * W)
    content title w tr e w' :
  configured bot_token chat_id ->
  send_message (mkBot (the bot_token)) (the chat_id)
    (payload title content) MARKDOWN w = (Raise e, w') ->
  let body :=
    send_telegram_message_body bot_token chat_id send_message content title
  in
  let after :=
    tr ++ attempt_prefix (the bot_token) (the chat_id) title content
       ++ [Logging (delivery_failure e)] in
  body (w, tr) = (Raise e, (w', after))
  /\ levelname (delivery_failure e) = ERROR
  /\ mentions (message (delivery_failure e)) (str e)
  /\ (is_TelegramError e = true -> exc_info (delivery_failure e) = None)
  /\ (is_TelegramError e = false -> exc_info (delivery_failure e) = Some e)
  /\ (forall fuel attempt,
        attempt < 3 ->
        tenacity.retrying policy_stop policy_wait body (S fuel) attempt
          (w, tr)
        = tenacity.retrying policy_stop policy_wait body fuel (S attempt)
            (w', after ++ [Sleep 2]))
  /\ (forall fuel attempt,
        3 <= attempt ->
        tenacity.retrying policy_stop policy_wait body (S fuel) attempt
          (w, tr)
        = Some (Raise (RetryError (mkFuture attempt e)), (w', after))).
Proof.
  intros Hready He. cbv zeta.
  pose proof (body_raise send_message content title w tr Hready He) as Hbody.
  unfold delivery_failed in Hbody.
  split; [exact Hbody|].
  split; [destruct e; reflexivity|].
  split; [destruct e; apply mentions_suffix|].
  split; [destruct e; [reflexivity|discriminate]|].
  split; [destruct e; [discriminate|reflexivity]|].
  split.
  - intros fuel attempt Ha.
    rewrite retrying_again with (1 := Hbody) by exact Ha.
    now rewrite policy_wait_early.
  - intros fuel attempt Ha. now apply retrying_stop.
Qed.

Lemma failed_attempt_is_logged_and_retried_witness :
  let body :=
    send_telegram_message_body Scenario.bot_token Scenario.chat_id
      Scenario.flaky (lit "BNB/USDT 买入") default_title in
  let after :=
    [] ++ attempt_prefix (the Scenario.bot_token) (the Scenario.chat_id)
            default_title (lit "BNB/USDT 买入")
       ++ [Logging (delivery_failure Scenario.timed_out)] in
  body ([Raise Scenario.timed_out], []) = (Raise Scenario.timed_out, ([], after))
  /\ levelname (delivery_failure Scenario.timed_out) = ERROR
  /\ mentions (message (delivery_failure Scenario.timed_out))
       (str Scenario.timed_out)
  /\ (is_TelegramError Scenario.timed_out = true ->
      exc_info (delivery_failure Scenario.timed_out) = None)
  /\ (is_TelegramError Scenario.timed_out = false ->
      exc_info (delivery_failure Scenario.timed_out)
      = Some Scenario.timed_out)
  /\ (forall fuel attempt,
        attempt < 3 ->
        tenacity.retrying policy_stop policy_wait body (S fuel) attempt
          ([Raise Scenario.timed_out], [])
        = tenacity.retrying policy_stop policy_wait body fuel (S attempt)
            ([], after ++ [Sleep 2]))
  /\ (forall fuel attempt,
        3 <= attempt ->
        tenacity.retrying policy_stop policy_wait body (S fuel) attempt
          ([Raise Scenario.timed_out], [])
        = Some (Raise (RetryError (mkFuture attempt Scenario.timed_out)),
                ([], after))).
Proof.
  apply (@failed_attempt_is_logged_and_retried _ unit Scenario.bot_token
           Scenario.chat_id Scenario.flaky (lit "BNB/USDT 买入")
           default_title [Raise Scenario.timed_out] []
           Scenario.timed_out []).
  - split; reflexivity.
  - reflexivity.
Defined.

(** ** Rendering *)

Lemma render_spec title content :
  render title content = [42%N] ++ title ++ [42; 10; 10]%N ++ content.
Proof. reflexivity. Qed.

(** C8: the text rendered for a title and a body is the title between two
    asterisks (bold in Telegram's Markdown), an empty line, and the body;
    with the configuration in place it is what every call to the bot
    carries, cut by the size policy when longer than 4000 characters, and
    the bot is told to parse it as Markdown.  A call that omits the title
    behaves as a call with the title "交易通知". *)
Theorem rendering W Message bot_token chat_id
    (send_message : Bot -> pystr -> pystr -> ParseMode -> W ->
                    outcome exception Message * W)
    content title fuel st r st' :
  configured bot_token chat_id ->
  send_telegram_message bot_token chat_id send_message content
    (Some title) fuel st
  = Some (r, st') ->
  render title content = lit "*" ++ title ++ lit "*" ++ [LF; LF] ++ content
  /\ (exists new,
        snd st' = snd st ++ new
        /\ sends new <> []
        /\ Forall (fun call =>
                     call = (mkBot (the bot_token), the chat_id,
                             payload title content, MARKDOWN))
                  (sends new))
  /\ (len (render title content) <= 4000 ->
      payload title content
      = lit "*" ++ title ++ lit "*" ++ [LF; LF] ++ content)
  /\ send_telegram_message bot_token chat_id send_message content None
     = send_telegram_message bot_token chat_id send_message content
         (Some (lit "交易通知")).
Proof.
  intros Hready Hrun. split; [reflexivity|]. split; [|split].
  - unfold send_telegram_message, tenacity.retry in Hrun.
    destruct (send_run_trace send_message content title Hready _ _ _ Hrun)
      as [rest [Htr [Hsends _]]].
    eexists. split; [exact Htr|].
    rewrite sends_app, sends_attempt_prefix. split; [discriminate|].
    constructor; [reflexivity | exact Hsends].
  - intros Hshort. now rewrite payload_short.
  - reflexivity.
Qed.

Lemma rendering_witness :
  render default_title (lit "BNB/USDT 买入")
  = lit "*" ++ default_title ++ lit "*" ++ [LF; LF] ++ lit "BNB/USDT 买入"
  /\ (exists new,
        snd ([] : list (outcome exception unit),
             delivered (the Scenario.bot_token) (the Scenario.chat_id)
               default_title (lit "BNB/USDT 买入"))
        = snd ([] : list (outcome exception unit), [] : trace) ++ new
        /\ sends new <> []
        /\ Forall (fun call =>
                     call = (mkBot (the Scenario.bot_token),
                             the Scenario.chat_id,
                             payload default_title (lit "BNB/USDT 买入"),
                             MARKDOWN))
                  (sends new))
  /\ (len (render default_title (lit "BNB/USDT 买入")) <= 4000 ->
      payload default_title (lit "BNB/USDT 买入")
      = lit "*" ++ default_title ++ lit "*" ++ [LF; LF]
        ++ lit "BNB/USDT 买入")
  /\ send_telegram_message Scenario.bot_token Scenario.chat_id
       Scenario.flaky (lit "BNB/USDT 买入") None
     = send_telegram_message Scenario.bot_token Scenario.chat_id
         Scenario.flaky (lit "BNB/USDT 买入") (Some (lit "交易通知")).
Proof.
  apply (@rendering _ unit Scenario.bot_token Scenario.chat_id
           Scenario.flaky (lit "BNB/USDT 买入") default_title 3
           ([], []) (Return PyNone)).
  - split; reflexivity.
  - vm_compute. reflexivity.
Defined.

Example default_notification_text :
  payload default_title (lit "BNB/USDT 买入")
  = [42; 20132; 26131; 36890; 30693; 42; 10; 10;
     66; 78; 66; 47; 85; 83; 68; 84; 32; 20080; 20837]%N.
Proof. reflexivity. Qed.

(** ** The success record *)

Lemma logs_attempt_prefix tok chat title content :
  In (announcement title) (logs (attempt_prefix tok chat title content)).
Proof. unfold attempt_prefix. simpl. auto. Qed.

Lemma logs_after_delivered (a : trace) tok chat title content :
  logs_after_last_send (a ++ delivered tok chat title content)
  = [confirmation].
Proof.
  unfold delivered, attempt_prefix.
  destruct (max_length <? len (render title content)).
  - change (a ++ (Logging (announcement title)
                  :: ([Logging (too_long_warning (len (render title content)))]
                      ++ [SendMessage (mkBot tok) chat
                            (payload title content) MARKDOWN]))
                 ++ [Logging confirmation])
      with (a ++ [Logging (announcement title);
                  Logging (too_long_warning (len (render title content)))]
              ++ SendMessage (mkBot tok) chat (payload title content) MARKDOWN
                 :: [Logging confirmation]).
    rewrite app_assoc. now rewrite logs_after_last_send_app.
  - change (a ++ (Logging (announcement title)
                  :: ([] ++ [SendMessage (mkBot tok) chat
                               (payload title content) MARKDOWN]))
                 ++ [Logging confirmation])
      with (a ++ [Logging (announcement title)]
              ++ SendMessage (mkBot tok) chat (payload title content) MARKDOWN
                 :: [Logging confirmation]).
    rewrite app_assoc. now rewrite logs_after_last_send_app.
Qed.

(** C9, as stated, fails: after a delivery with the default title the only
    record logged once the bot has answered is the fixed confirmation, and
    its message does not contain the title. *)
Lemma confirmation_does_not_name_title :
  (exists tr,
     send_telegram_message Scenario.bot_token Scenario.chat_id
       Scenario.flaky (lit "BNB/USDT 买入") None 3 ([], [])
     = Some (Return PyNone, ([], tr))
     /\ logs_after_last_send tr = [confirmation])
  /\ message confirmation = lit "Telegram消息发送成功"
  /\ ~ mentions (message confirmation) default_title.
Proof.
  split; [|split].
  - eexists. split; vm_compute; reflexivity.
  - reflexivity.
  - intros H. apply contains_spec in H. vm_compute in H. discriminate.
Qed.

(** C9, amended: a delivery that succeeds, on the first attempt or after
    retries, logs an info-level line that names the title before it calls
    the bot, and after the call an info-level confirmation whose text is
    fixed; nothing else is logged after the call. *)
Theorem delivery_is_announced_and_confirmed W Message bot_token chat_id
    (send_message : Bot -> pystr -> pystr -> ParseMode -> W ->
                    outcome exception Message * W)
    content title w0 es w' m w'' tr fuel :
  configured bot_token chat_id ->
  fails_through
    (send_message (mkBot (the bot_token)) (the chat_id)
       (payload title content) MARKDOWN) w0 es w' ->
  send_message (mkBot (the bot_token)) (the chat_id)
    (payload title content) MARKDOWN w' = (Return m, w'') ->
  List.length es < 3 ->
  3 <= fuel ->
  exists before,
    let last := delivered (the bot_token) (the chat_id) title content in
    send_telegram_message bot_token chat_id send_message content
      (Some title) fuel (w0, tr)
    = Some (Return PyNone, (w'', tr ++ before ++ last))
    /\ In (announcement title) (logs last)
    /\ levelname (announcement title) = INFO
    /\ mentions (message (announcement title)) title
    /\ logs_after_last_send (tr ++ before ++ last) = [confirmation]
    /\ levelname confirmation = INFO
    /\ message confirmation = lit "Telegram消息发送成功".
Proof.
  intros Hready Hes Hm Hlen Hfuel.
  exists (retried (delivery_failed (the bot_token) (the chat_id)
                     title content) es).
  cbv zeta. split; [now apply send_succeeds with (w' := w') (m := m)|].
  split.
  { unfold delivered. rewrite logs_app. apply in_or_app. left.
    apply logs_attempt_prefix. }
  split; [reflexivity|].
  split; [apply mentions_suffix|].
  split; [|split; reflexivity].
  rewrite app_assoc. apply logs_after_delivered.
Qed.

Lemma delivery_is_announced_and_confirmed_witness :
  exists before,
    let last :=
      delivered (the Scenario.bot_token) (the Scenario.chat_id)
        default_title (lit "BNB/USDT 买入") in
    send_telegram_message Scenario.bot_token Scenario.chat_id
      Scenario.flaky (lit "BNB/USDT 买入") (Some default_title) 3
      ([Raise Scenario.chat_not_found], [])
    = Some (Return PyNone, ([], [] ++ before ++ last))
    /\ In (announcement default_title) (logs last)
    /\ levelname (announcement default_title) = INFO
    /\ mentions (message (announcement default_title)) default_title
    /\ logs_after_last_send ([] ++ before ++ last) = [confirmation]
    /\ levelname confirmation = INFO
    /\ message confirmation = lit "Telegram消息发送成功".
Proof.
  apply (@delivery_is_announced_and_confirmed _ unit Scenario.bot_token
           Scenario.chat_id Scenario.flaky (lit "BNB/USDT 买入")
           default_title [Raise Scenario.chat_not_found]
           [Scenario.chat_not_found] [] tt [] [] 3).
  - split; reflexivity.
  - simpl. repeat (eexists; split; [reflexivity|]). reflexivity.
  - reflexivity.
  - simpl. lia.
  - lia.
Defined.

(** ** The value returned *)

Lemma body_returns_None W Message bot_token chat_id
    (send_message : Bot -> pystr -> pystr -> ParseMode -> W ->
                    outcome exception Message * W)
    content title st v st' :
  send_telegram_message_body bot_token chat_id send_message content title st
  = (Return v, st') ->
  v = PyNone.
Proof.
  destruct st as [w tr]. intros H.
  destruct (configured_dec bot_token chat_id) as [Hc | Hc].
  - destruct (send_message (mkBot (the bot_token)) (the chat_id)
                (payload title content) MARKDOWN w) as [[m | e] w'] eqn:E.
    + rewrite (body_return send_message content title w tr Hc E) in H.
      now injection H as <- _.
    + rewrite (body_raise send_message content title w tr Hc E) in H.
      discriminate.
  - rewrite body_unconfigured in H by exact Hc. now injection H as <- _.
Qed.

Lemma send_returns_None W Message bot_token chat_id
    (send_message : Bot -> pystr -> pystr -> ParseMode -> W ->
                    outcome exception Message * W)
    content title fuel st v st' :
  send_telegram_message bot_token chat_id send_message content title fuel st
  = Some (Return v, st') ->
  v = PyNone.
Proof.
  unfold send_telegram_message, tenacity.retry. intros Hrun.
  apply retrying_returns in Hrun. destruct Hrun as [st0 H].
  exact (body_returns_None _ _ _ _ _ _ H).
Qed.

(** C10: whenever [send_telegram_message] returns, it returns [None]; a
    call skipped for want of configuration and a call that delivered
    therefore hand the same value to the caller. *)
Theorem returns_None W Message
    (send_message : Bot -> pystr -> pystr -> ParseMode -> W ->
                    outcome exception Message * W) :
  (forall bot_token chat_id content title fuel st v st',
      send_telegram_message bot_token chat_id send_message content title
        fuel st
      = Some (Return v, st') ->
      v = PyNone)
  /\ (forall bot_token chat_id content title fuel st skipped st1
          bot_token' chat_id' content' title' fuel' st' sent st2,
      ~ configured bot_token chat_id ->
      send_telegram_message bot_token chat_id send_message content title
        fuel st
      = Some (Return skipped, st1) ->
      configured bot_token' chat_id' ->
      send_telegram_message bot_token' chat_id' send_message content' title'
        fuel' st'
      = Some (Return sent, st2) ->
      skipped = sent).
Proof.
  split.
  - intros. eapply send_returns_None. eassumption.
  - intros bot_token chat_id content title fuel st skipped st1
           bot_token' chat_id' content' title' fuel' st' sent st2 _ H1 _ H2.
    apply send_returns_None in H1. apply send_returns_None in H2.
    now subst.
Qed.

Lemma returns_None_witness :
  send_telegram_message Scenario.bot_token Scenario.chat_id Scenario.flaky
    (lit "BNB/USDT 买入") None 3 ([Raise Scenario.timed_out], [])
  = Some (Return PyNone,
          ([], retried (delivery_failed (the Scenario.bot_token)
                          (the Scenario.chat_id) default_title
                          (lit "BNB/USDT 买入")) [Scenario.timed_out]
               ++ delivered (the Scenario.bot_token) (the Scenario.chat_id)
                    default_title (lit "BNB/USDT 买入")))
  /\ @PyNone unit = PyNone.
Proof.
  split; [vm_compute; reflexivity|].
  apply (proj1 (returns_None Scenario.flaky)
           Scenario.bot_token Scenario.chat_id (lit "BNB/USDT 买入") None 3
           ([Raise Scenario.timed_out], []) PyNone
           ([], retried (delivery_failed (the Scenario.bot_token)
                           (the Scenario.chat_id) default_title
                           (lit "BNB/USDT 买入")) [Scenario.timed_out]
                ++ delivered (the Scenario.bot_token) (the Scenario.chat_id)
                     default_title (lit "BNB/USDT 买入"))).
  vm_compute. reflexivity.
Defined.

(** * Further properties *)

(** ** The shape of every run of the retry loop *)

Section RunShape.

Variables W T : Type.
Variable fn : M W exception T.

(** What an attempt with a given outcome adds to the trace. *)
Variable added : outcome exception T -> trace -> Prop.

Hypothesis fn_adds : forall st r st',
  fn st = (r, st') -> exists p, snd st' = snd st ++ p /\ added r p.

Lemma retrying_shape fuel : forall a st r st',
  a <= 3 ->
  tenacity.retrying policy_stop policy_wait fn fuel a st = Some (r, st') ->
  exists pieces last,
    snd st' = snd st ++ attempts_then pieces last
    /\ Forall (fun p => exists e, added (Raise e) p) pieces
    /\ List.length pieces + a <= 3
    /\ match r with
       | Return v => added (Return v) last
       | Raise x =>
           exists e, x = RetryError (mkFuture 3 e)
                     /\ added (Raise e) last
                     /\ List.length pieces + a = 3
       end.
Proof.
  induction fuel as [|fuel IH]; intros a st r st' Ha Hrun; [discriminate|].
  destruct (fn st) as [[v | e] [w1 tr1]] eqn:E.
  - rewrite retrying_return with (1 := E) in Hrun. injection Hrun as <- <-.
    destruct (fn_adds E) as [p [Hp Hadd]].
    exists [], p. repeat split; auto; simpl; lia.
  - destruct (Nat.lt_ge_cases a 3) as [Hlt | Hge].
    + rewrite retrying_again with (1 := E) in Hrun by exact Hlt.
      rewrite policy_wait_early in Hrun by exact Hlt.
      destruct (fn_adds E) as [p [Hp Hadd]]. cbn [snd] in Hp.
      destruct (IH (S a) _ r st' Hlt Hrun)
        as [pieces [last [Htr [Hall [Hlen Hr]]]]].
      cbn [snd] in Htr.
      exists (p :: pieces), last. split; [|split; [|split]].
      * rewrite Htr, Hp. unfold attempts_then. cbn [flat_map].
        now rewrite <- !app_assoc.
      * constructor; [now exists e | exact Hall].
      * simpl. lia.
      * destruct r as [v | x]; [exact Hr|].
        destruct Hr as [e' [Hx [Hadd' Hlen']]].
        exists e'. repeat split; auto. simpl. lia.
    + assert (a = 3) as -> by lia.
      rewrite retrying_stop with (1 := E) in Hrun by lia.
      injection Hrun as <- <-.
      destruct (fn_adds E) as [p [Hp Hadd]].
      exists [], p. repeat split; auto.
      exists e. repeat split; auto.
Qed.

End RunShape.

(** Counting over the pieces of a run. *)
Lemma count_attempts (f : trace -> nat) c s pieces :
  (forall a b, f (a ++ b) = f a + f b) ->
  f [Sleep 2] = s ->
  Forall (fun p => f p = c) pieces ->
  f (flat_map (fun p => p ++ [Sleep 2]) pieces)
  = (c + s) * List.length pieces.
Proof.
  intros Happ Hs Hall. induction Hall as [|p pieces Hp _ IH].
  - simpl. specialize (Happ [] []). simpl in Happ. lia.
  - cbn [flat_map List.length]. rewrite !Happ, Hp, Hs, IH.
    rewrite Nat.mul_succ_r. lia.
Qed.

Lemma length_sleeps_app (a b : trace) :
  List.length (sleeps (a ++ b))
  = List.length (sleeps a) + List.length (sleeps b).
Proof. now rewrite sleeps_app, length_app. Qed.

Lemma length_sends_app (a b : trace) :
  List.length (sends (a ++ b))
  = List.length (sends a) + List.length (sends b).
Proof. now rewrite sends_app, length_app. Qed.

Lemma count_level_app l (a b : trace) :
  count_level l (a ++ b) = count_level l a + count_level l b.
Proof. unfold count_level. now rewrite logs_app, filter_app, length_app. Qed.

Lemma backoff_total_app (a b : trace) :
  backoff_total (a ++ b) = (backoff_total a + backoff_total b)%Z.
Proof.
  unfold backoff_total. rewrite sleeps_app.
  induction (sleeps a) as [|d l IH]; simpl; lia.
Qed.

Lemma backoff_total_attempts pieces :
  Forall (fun p => sleeps p = []) pieces ->
  backoff_total (flat_map (fun p => p ++ [Sleep 2]) pieces)
  = (2 * Z.of_nat (List.length pieces))%Z.
Proof.
  intros Hall. induction Hall as [|p pieces Hp _ IH].
  - reflexivity.
  - cbn [flat_map List.length]. rewrite !backoff_total_app, IH.
    rewrite Nat2Z.inj_succ. unfold backoff_total. rewrite Hp.
    cbn [sleeps fold_right]. lia.
Qed.

(** ** Every run of [safe_fetch] *)

Section SafeFetchRuns.

Variables W T : Type.
Variable method : W -> outcome exception T * W.

Lemma safe_fetch_body_adds st r st' :
  safe_fetch_body method st = (r, st') ->
  exists p, snd st' = snd st ++ p /\ p = fetch_attempt r.
Proof.
  destruct st as [w tr]. intros H.
  destruct (method w) as [[v | e] w'] eqn:E.
  - rewrite safe_fetch_body_return with (1 := E) in H. injection H as <- <-.
    now exists [Await].
  - rewrite safe_fetch_body_raise with (1 := E) in H. injection H as <- <-.
    now exists (fetch_failed e).
Qed.


End SafeFetchRuns.

Lemma count_failed (f : trace -> nat) (g : exception -> trace) c s es :
  (forall a b, f (a ++ b) = f a + f b) ->
  f [Sleep 2] = s ->
  (forall e, f (g e) = c) ->
  f (flat_map (fun p => p ++ [Sleep 2]) (map g es)) = (c + s) * List.length es.
Proof.
  intros Happ Hs Hg.
  rewrite count_attempts with (c := c) (s := s); auto.
  - now rewrite length_map.
  - apply Forall_map, Forall_forall. auto.
Qed.

Lemma backoff_total_failed (g : exception -> trace) es :
  (forall e, sleeps (g e) = []) ->
  backoff_total (flat_map (fun p => p ++ [Sleep 2]) (map g es))
  = (2 * Z.of_nat (List.length es))%Z.
Proof.
  intros Hg. rewrite backoff_total_attempts.
  - now rewrite length_map.
  - apply Forall_map, Forall_forall. auto.
Qed.

Lemma logs_failed (g : exception -> trace) (P : LogRecord -> Prop) es :
  (forall e, Forall P (logs (g e))) ->
  Forall P (logs (flat_map (fun p => p ++ [Sleep 2]) (map g es))).
Proof.
  intros Hg. induction es as [|e es IH]; [constructor|].
  cbn [map flat_map]. rewrite !logs_app.
  apply Forall_app. split; [|exact IH].
  apply Forall_app. split; [apply Hg | constructor].
Qed.




Lemma logs_retried_fetch es :
  logs (retried fetch_failed es) = map fetch_failure es.
Proof.
  induction es as [|e es IH]; [reflexivity|].
  unfold retried in *. cbn [flat_map map]. rewrite logs_app, IH.
  reflexivity.
Qed.

(** X2: [safe_fetch] logs one record per failed call, in order, and
    nothing else: when the calls raise [es] before one returns, or raise
    three times, the records logged are those of [es], respectively of
    the three exceptions, each at error severity, without traceback, and
    reading "请求失败: " followed by [str(e)] for the exception [e] that
    call raised. *)
Theorem safe_fetch_logs_each_failure :
  (forall e,
      fetch_failure e = mkLog ERROR (lit "请求失败: " ++ str e) None)
  /\ (forall W T (method : W -> outcome exception T * W)
             w0 es w' v w'' tr fuel,
         fails_through method w0 es w' ->
         method w' = (Return v, w'') ->
         List.length es < 3 ->
         3 <= fuel ->
         exists new,
           safe_fetch method fuel (w0, tr)
           = Some (Return v, (w'', tr ++ new))
           /\ logs new = map fetch_failure es)
  /\ (forall W T (method : W -> outcome exception T * W)
             w0 e1 e2 e3 w3 tr fuel,
         fails_through method w0 [e1; e2; e3] w3 ->
         3 <= fuel ->
         exists new,
           safe_fetch method fuel (w0, tr)
           = Some (Raise (RetryError (mkFuture 3 e3)), (w3, tr ++ new))
           /\ logs new = map fetch_failure [e1; e2; e3]).
Proof.
  split; [reflexivity|]. split.
  - intros W T method w0 es w' v w'' tr fuel Hes Hv Hlen Hfuel.
    eexists. split.
    + apply safe_fetch_succeeds with (w' := w'); eassumption.
    + rewrite logs_app, logs_retried_fetch. cbn [logs]. apply app_nil_r.
  - intros W T method w0 e1 e2 e3 w3 tr fuel Hes Hfuel.
    eexists. split.
    + apply safe_fetch_exhausted; eassumption.
    + rewrite logs_app, logs_retried_fetch. reflexivity.
Qed.

Lemma safe_fetch_logs_each_failure_witness :
  exists new,
    safe_fetch (Scenario.scripted (Return 7)) 3
      ([Raise Scenario.timed_out; Raise Scenario.chat_not_found], [])
    = Some (Return 7, ([], [] ++ new))
    /\ logs new
       = map fetch_failure [Scenario.timed_out; Scenario.chat_not_found].
Proof.
  apply (proj1 (proj2 safe_fetch_logs_each_failure) _ _
           (Scenario.scripted (Return 7))
           [Raise Scenario.timed_out; Raise Scenario.chat_not_found]
           [Scenario.timed_out; Scenario.chat_not_found] [] 7 [] [] 3).
  - simpl. repeat (eexists; split; [reflexivity|]). reflexivity.
  - reflexivity.
  - simpl. lia.
  - lia.
Defined.

(** ** Every run of [send_telegram_message] *)

Section SendRuns.

Variables W Message : Type.
Variables bot_token chat_id : option pystr.
Variable send_message :
  Bot -> pystr -> pystr -> ParseMode -> W -> outcome exception Message * W.
Variables content title : pystr.

Hypothesis ready : configured bot_token chat_id.

Let failed := delivery_failed (the bot_token) (the chat_id) title content.
Let done := delivered (the bot_token) (the chat_id) title content.

Lemma send_body_adds st r st' :
  send_telegram_message_body bot_token chat_id send_message content title st
  = (r, st') ->
  exists p,
    snd st' = snd st ++ p
    /\ p = send_attempt (the bot_token) (the chat_id) title content r.
Proof.
  destruct st as [w tr]. intros H.
  destruct (send_message (mkBot (the bot_token)) (the chat_id)
              (payload title content) MARKDOWN w) as [[m | e] w'] eqn:E.
  - rewrite (body_return send_message content title w tr ready E) in H.
    injection H as <- <-. eexists. split; reflexivity.
  - rewrite (body_raise send_message content title w tr ready E) in H.
    injection H as <- <-. eexists. split; reflexivity.
Qed.

Lemma send_shape fuel st r st' :
  send_telegram_message bot_token chat_id send_message content (Some title)
    fuel st
  = Some (r, st') ->
  exists es last,
    snd st' = snd st ++ attempts_then (map failed es) last
    /\ List.length es <= 2
    /\ match r with
       | Return _ => last = done
       | Raise x =>
           exists e, x = RetryError (mkFuture 3 e)
                     /\ last = failed e /\ List.length es = 2
       end.
Proof.
  unfold send_telegram_message, tenacity.retry. intros Hrun.
  destruct (retrying_shape
              (send_telegram_message_body bot_token chat_id send_message
                 content title)
              (fun r p => p = send_attempt (the bot_token) (the chat_id)
                                title content r)
              send_body_adds fuel (a:=1) st ltac:(lia) Hrun)
    as [pieces [last [Htr [Hall [Hlen Hr]]]]].
  assert (Hes : exists es, pieces = map failed es).
  { clear -Hall. induction Hall as [|p pieces [e Hp] _ [es IH]].
    - now exists [].
    - exists (e :: es). simpl. now rewrite Hp, IH. }
  destruct Hes as [es ->]. rewrite length_map in *.
  exists es, last. split; [exact Htr|]. split; [lia|].
  destruct r as [v | x]; [exact Hr|].
  destruct Hr as [e [Hx [Hlast Hl]]]. exists e. repeat split; auto. lia.
Qed.

End SendRuns.

Lemma count_warning_failed tok chat title content e :
  count_level WARNING (delivery_failed tok chat title content e)
  = if max_length <? len (render title content) then 1 else 0.
Proof.
  unfold delivery_failed, attempt_prefix, delivery_failure.
  destruct (max_length <? len (render title content)), e; reflexivity.
Qed.

Lemma count_warning_delivered tok chat title content :
  count_level WARNING (delivered tok chat title content)
  = if max_length <? len (render title content) then 1 else 0.
Proof.
  unfold delivered, attempt_prefix.
  destruct (max_length <? len (render title content)); reflexivity.
Qed.



(** X5: the size check is part of every attempt: when the rendered text
    is longer than 4000 characters the warning is logged once per call to
    the bot, retries included, and never otherwise. *)
Theorem warning_is_logged_on_every_attempt W Message bot_token chat_id
    (send_message : Bot -> pystr -> pystr -> ParseMode -> W ->
                    outcome exception Message * W)
    content title fuel st r st' :
  configured bot_token chat_id ->
  send_telegram_message bot_token chat_id send_message content
    (Some title) fuel st
  = Some (r, st') ->
  exists new,
    snd st' = snd st ++ new
    /\ count_level WARNING new
       = if 4000 <? len (render title content)
         then List.length (sends new) else 0.
Proof.
  intros Hready Hrun.
  destruct (send_shape send_message content title Hready _ _ Hrun)
    as [es [last [Htr [Hlen Hr]]]].
  eexists. split; [exact Htr|]. unfold attempts_then.
  rewrite count_level_app, length_sends_app.
  rewrite (count_failed (fun t => List.length (sends t)) _ (c:=1) (s:=0) es)
    by (auto using length_sends_app; intros;
        now rewrite sends_delivery_failed).
  rewrite (count_failed (count_level WARNING) _
             (c:=if max_length <? len (render title content) then 1 else 0)
             (s:=0) es)
    by (auto using count_level_app, count_warning_failed).
  assert (Hlast : count_level WARNING last
                  = (if max_length <? len (render title content)
                     then 1 else 0)
                  /\ List.length (sends last) = 1).
  { destruct r as [v | x].
    - subst last. now rewrite count_warning_delivered, sends_delivered.
    - destruct Hr as [e [_ [-> _]]].
      now rewrite count_warning_failed, sends_delivery_failed. }
  destruct Hlast as [-> ->]. change 4000 with max_length.
  destruct (max_length <? len (render title content)); lia.
Qed.

Lemma warning_is_logged_on_every_attempt_witness :
  exists new,
    snd ([] : list (outcome exception unit),
         attempts_then
           [delivery_failed (the Scenario.bot_token) (the Scenario.chat_id)
              default_title Scenario.long_body Scenario.timed_out]
           (delivered (the Scenario.bot_token) (the Scenario.chat_id)
              default_title Scenario.long_body))
    = snd ([Raise Scenario.timed_out] : list (outcome exception unit),
           [] : trace) ++ new
    /\ count_level WARNING new
       = if 4000 <? len (render default_title Scenario.long_body)
         then List.length (sends new) else 0.
Proof.
  apply (@warning_is_logged_on_every_attempt _ unit Scenario.bot_token
           Scenario.chat_id Scenario.flaky Scenario.long_body default_title
           3 ([Raise Scenario.timed_out], []) (Return PyNone)).
  - split; reflexivity.
  - vm_compute. reflexivity.
Defined.

Example two_attempts_two_warnings :
  exists tr,
    send_telegram_message Scenario.bot_token Scenario.chat_id
      Scenario.flaky Scenario.long_body None 3
      ([Raise Scenario.timed_out], [])
    = Some (Return PyNone, ([], tr))
    /\ List.length (sends tr) = 2
    /\ count_level WARNING tr = 2.
Proof. eexists. vm_compute. repeat split. Qed.




(** ** format_trade_message *)

Lemma pystr_eqb_spec (s t : pystr) : pystr_eqb s t = true <-> s = t.
Proof.
  revert t. induction s as [|c s IH]; intros [|d t]; simpl;
    try (split; [discriminate | intros H; discriminate H]).
  - split; reflexivity.
  - rewrite andb_true_iff, N.eqb_eq, IH. split.
    + now intros [-> ->].
    + intros H. injection H as -> ->. now split.
Qed.

Lemma pystr_eqb_neq (s t : pystr) : s <> t -> pystr_eqb s t = false.
Proof.
  intros H. destruct (pystr_eqb s t) eqn:E; [|reflexivity].
  apply pystr_eqb_spec in E. contradiction.
Qed.

Section FormatTradeMessageFacts.

Variable float : Type.
Variables format_2f format_4f format_str : float -> pystr.

Let format := format_trade_message format_2f format_4f format_str.

(** X7: the side is only compared with "buy": any other string, "BUY"
    and the empty string included, gives the message of a sell. *)
Theorem any_side_but_buy_is_a_sell side symbol price amount total grid_size
    retry_count now :
  side <> lit "buy" ->
  format side symbol price amount total grid_size retry_count now
  = format (lit "sell") symbol price amount total grid_size retry_count now.
Proof.
  intros H. unfold format, format_trade_message, message_body.
  rewrite (pystr_eqb_neq H).
  change (pystr_eqb (lit "sell") (lit "buy")) with false.
  reflexivity.
Qed.

(** X8: [retry_count=None] and the empty tuple give the same message,
    which ends with the time stamp; a pair of numbers, zeros included,
    adds one line, "🔄 尝试：current/max次", just before the time
    stamp. *)
Theorem retry_line_is_optional side symbol price amount total grid_size now :
  format side symbol price amount total grid_size (Some []) now
  = format side symbol price amount total grid_size None now
  /\ exists head,
       format side symbol price amount total grid_size None now
       = Return (head ++ lit "⏰ 时间：" ++ now)
       /\ forall current max_retries,
            format side symbol price amount total grid_size
              (Some [current; max_retries]) now
            = Return (head
                      ++ (lit "🔄 尝试：" ++ str_of_Z current ++ lit "/"
                          ++ str_of_Z max_retries ++ lit "次" ++ [LF])
                      ++ lit "⏰ 时间：" ++ now).
Proof.
  split; [reflexivity|].
  exists (message_body format_2f format_4f format_str side symbol price
            amount total grid_size).
  split; [reflexivity|]. intros current max_retries.
  unfold format, format_trade_message. cbn [tuple_truthy unpack_pair].
  now rewrite <- !app_assoc.
Qed.

(** X9: [format_trade_message] fails exactly when [retry_count] is a
    non-empty tuple that does not hold two values, and then with
    [ValueError]; otherwise it returns a message. *)
Theorem malformed_retry_count_raises side symbol price amount total
    grid_size now (t : list Z) :
  t <> [] ->
  List.length t <> 2 ->
  (exists detail,
     format side symbol price amount total grid_size (Some t) now
     = Raise (ValueError detail))
  /\ (forall retry_count,
        (exists message,
           format side symbol price amount total grid_size retry_count now
           = Return message)
        <-> retry_count = None \/ retry_count = Some []
            \/ exists current max_retries,
                 retry_count = Some [current; max_retries]).
Proof.
  intros Hne Hlen. split.
  - unfold format, format_trade_message.
    destruct t as [|a [|b [|c t]]];
      [contradiction | | simpl in Hlen; lia |]; eexists; reflexivity.
  - intros retry_count. unfold format, format_trade_message. split.
    + intros [message H].
      destruct retry_count as [[|a [|b [|c t']]]|]; try discriminate H; eauto.
    + intros [-> | [-> | [current [max_retries ->]]]]; eexists; reflexivity.
Qed.

End FormatTradeMessageFacts.

Lemma any_side_but_buy_is_a_sell_witness :
  lit "BUY" <> lit "buy"
  /\ format_trade_message (fun _ : Z => lit "600.00")
       (fun _ => lit "0.0500") (fun _ => lit "2.0")
       (lit "BUY") (lit "BNB/USDT") 0%Z 0%Z 0%Z 0%Z None
       (lit "2025-01-01 00:00:00")
     = format_trade_message (fun _ : Z => lit "600.00")
         (fun _ => lit "0.0500") (fun _ => lit "2.0")
         (lit "sell") (lit "BNB/USDT") 0%Z 0%Z 0%Z 0%Z None
         (lit "2025-01-01 00:00:00").
Proof.
  split; [discriminate|].
  apply (@any_side_but_buy_is_a_sell Z). discriminate.
Defined.

Lemma malformed_retry_count_raises_witness :
  exists detail,
    format_trade_message (fun _ : Z => lit "600.00")
      (fun _ => lit "0.0500") (fun _ => lit "2.0")
      (lit "buy") (lit "BNB/USDT") 0%Z 0%Z 0%Z 0%Z (Some [1%Z])
      (lit "2025-01-01 00:00:00")
    = Raise (ValueError detail).
Proof.
  apply (@malformed_retry_count_raises Z (fun _ => lit "600.00")
           (fun _ => lit "0.0500") (fun _ => lit "2.0")
           (lit "buy") (lit "BNB/USDT") 0%Z 0%Z 0%Z 0%Z
           (lit "2025-01-01 00:00:00") [1%Z]).
  - discriminate.
  - simpl. lia.
Defined.

Example a_buy_with_retries :
  format_trade_message (fun _ : Z => lit "600.00")
    (fun _ => lit "0.0500") (fun _ => lit "2.0")
    (lit "buy") (lit "BNB/USDT") 0%Z 0%Z 0%Z 0%Z (Some [2; 10]%Z)
    (lit "2025-01-01 00:00:00")
  = Return
      ([LF] ++ lit "🟢 买入 BNB/USDT"
       ++ [LF] ++ lit "━━━━━━━━━━━━━━━━━━━━"
       ++ [LF] ++ lit "💰 价格：600.00 USDT"
       ++ [LF] ++ lit "📊 数量：0.0500 BNB"
       ++ [LF] ++ lit "💵 金额：600.00 USDT"
       ++ [LF] ++ lit "📈 网格：2.0%"
       ++ [LF] ++ lit "🔄 尝试：2/10次"
       ++ [LF] ++ lit "⏰ 时间：2025-01-01 00:00:00").
Proof. reflexivity. Qed.

(** ** debug_watcher *)

(** X10: the wrapper of [debug_watcher] is transparent: it logs the start,
    runs the wrapped coroutine once, and hands back what the coroutine
    returned or raised, unchanged; in both cases it logs the completion
    afterwards, with the time elapsed and the memory taken between the
    two readings. *)
Theorem debug_watcher_is_transparent W E T float
    (fsub : float -> float -> float) (format_3f : float -> pystr)
    (format_mb : Z -> pystr) (time_time : W -> float)
    (memory_used : W -> Z) func_name (func : M W E T) w tr r w' tr' :
  func (w, tr ++ [Logging (started func_name)]) = (r, (w', tr')) ->
  debug_watcher fsub format_3f format_mb time_time memory_used func_name
    func (w, tr)
  = (r, (w', tr' ++ [Logging (finished format_3f format_mb func_name
                                (fsub (time_time w') (time_time w))
                                (memory_used w' - memory_used w))])).
Proof.
  intros H.
  unfold debug_watcher, try_finally, bind, observe, logging_debug, emit.
  cbn [fst snd]. unfold started in H. rewrite H. reflexivity.
Qed.

Lemma debug_watcher_is_transparent_witness :
  debug_watcher Z.sub str_of_Z str_of_Z (fun w => Z.of_nat (List.length w))
    (fun _ => 0%Z) (lit "safe_fetch")
    (safe_fetch_body (Scenario.scripted (Return 7)))
    ([Raise Scenario.timed_out], [])
  = (Raise Scenario.timed_out,
     ([], ([Logging (started (lit "safe_fetch"))]
           ++ fetch_failed Scenario.timed_out)
          ++ [Logging (finished str_of_Z str_of_Z (lit "safe_fetch")
                         (0 - 1)%Z (0 - 0)%Z)])).
Proof.
  apply (@debug_watcher_is_transparent _ _ _ Z Z.sub str_of_Z str_of_Z
           (fun w => Z.of_nat (List.length w)) (fun _ => 0%Z)
           (lit "safe_fetch")
           (safe_fetch_body (Scenario.scripted (Return 7)))
           [Raise Scenario.timed_out] [] (Raise Scenario.timed_out) []
           ([Logging (started (lit "safe_fetch"))]
            ++ fetch_failed Scenario.timed_out)).
  reflexivity.
Defined.

(** ** LogConfig.setup_logger *)

Lemma has_handler_head h hs : has_handler h (h :: hs) = true.
Proof. simpl. destruct (Handler_eq_dec h h); [reflexivity|contradiction]. Qed.

Lemma list_remove_head h hs : list_remove h (h :: hs) = hs.
Proof. simpl. destruct (Handler_eq_dec h h); [reflexivity|contradiction]. Qed.

Lemma removeHandler_head l h hs :
  removeHandler h (mkLogger l (h :: hs)) = mkLogger l hs.
Proof.
  unfold removeHandler. cbn [handlers logger_level].
  now rewrite has_handler_head, list_remove_head.
Qed.

(** Removing, one after the other, the handlers of a copy of the list
    empties the list. *)
Lemma remove_every_handler l hs : forall rest,
  fold_left (fun logger handler => removeHandler handler logger) hs
            (mkLogger l (hs ++ rest))
  = mkLogger l rest.
Proof.
  induction hs as [|h hs IH]; intros rest; [reflexivity|].
  cbn [fold_left]. rewrite <- app_comm_cons, removeHandler_head. apply IH.
Qed.

Lemma setup_logger_spec LOG_DIR root :
  LogConfig.setup_logger LOG_DIR root
  = mkLogger INFO [LogConfig.file_handler LOG_DIR; LogConfig.console_handler].
Proof.
  destruct root as [l hs]. unfold LogConfig.setup_logger, setLevel.
  cbn [handlers logger_level].
  rewrite <- (app_nil_r hs) at 2. rewrite remove_every_handler.
  unfold addHandler. cbn [handlers logger_level has_handler app].
  destruct (Handler_eq_dec LogConfig.console_handler
              (LogConfig.file_handler LOG_DIR)) as [Heq | _];
    [discriminate Heq | reflexivity].
Qed.

(** X11: whatever the level and the handlers of the root logger before,
    after [setup_logger] its level is INFO and its handlers are exactly
    the rotating file handler and the console handler, in this order; so
    calling [setup_logger] again changes nothing and never duplicates a
    handler. *)
Theorem setup_logger_resets_the_root_logger LOG_DIR root :
  LogConfig.setup_logger LOG_DIR root
  = mkLogger INFO [LogConfig.file_handler LOG_DIR; LogConfig.console_handler]
  /\ LogConfig.setup_logger LOG_DIR (LogConfig.setup_logger LOG_DIR root)
     = LogConfig.setup_logger LOG_DIR root.
Proof.
  split; [apply setup_logger_spec | now rewrite !setup_logger_spec].
Qed.

Example setup_logger_drops_foreign_handlers :
  LogConfig.setup_logger (lit "/opt/bot")
    (mkLogger WARNING [ForeignHandler 0; StreamHandler None; ForeignHandler 0])
  = mkLogger INFO
      [TimedRotatingFileHandler (lit "/opt/bot/trading_system.log")
         (lit "midnight") 1 2 (lit "utf-8") true
         (Some (mkFormatter
                  (lit "%(asctime)s [%(name)s] %(levelname)s: %(message)s")
                  (Some (lit "%Y-%m-%d %H:%M:%S"))));
       StreamHandler (Some (mkFormatter (lit "%(message)s") None))].
Proof. reflexivity. Qed.

(** ** What reaches the handlers *)

Lemma levels_fetch_attempt T (r : outcome exception T) :
  Forall (fun rec => levelname rec <> DEBUG) (logs (fetch_attempt r)).
Proof. destruct r; repeat constructor; discriminate. Qed.

Lemma levels_send_attempt T tok chat title content
    (r : outcome exception T) :
  Forall (fun rec => levelname rec <> DEBUG)
         (logs (send_attempt tok chat title content r)).
Proof.
  destruct r as [v | e]; unfold send_attempt, delivered, delivery_failed,
    attempt_prefix, delivery_failure;
    destruct (max_length <? len (render title content)); try destruct e;
    repeat constructor; discriminate.
Qed.

Lemma safe_fetch_levels W T (method : W -> outcome exception T * W)
    fuel st r st' :
  safe_fetch method fuel st = Some (r, st') ->
  exists new,
    snd st' = snd st ++ new
    /\ Forall (fun rec => levelname rec <> DEBUG) (logs new).
Proof.
  unfold safe_fetch, tenacity.retry.
  apply retrying_trace
    with (P := fun new => Forall (fun rec => levelname rec <> DEBUG)
                                 (logs new)).
  - intros st0 r0 st0' H.
    destruct (safe_fetch_body_adds _ _ H) as [p [Hp ->]].
    exists (fetch_attempt r0). split; [exact Hp | apply levels_fetch_attempt].
  - intros a b Ha Hb. rewrite logs_app. apply Forall_app. now split.
  - intros a _. constructor.
Qed.

Lemma send_levels W Message bot_token chat_id
    (send_message : Bot -> pystr -> pystr -> ParseMode -> W ->
                    outcome exception Message * W)
    content title fuel st r st' :
  send_telegram_message bot_token chat_id send_message content title fuel st
  = Some (r, st') ->
  exists new,
    snd st' = snd st ++ new
    /\ Forall (fun rec => levelname rec <> DEBUG) (logs new).
Proof.
  unfold send_telegram_message, tenacity.retry.
  set (t := match title with Some t => t | None => default_title end).
  apply retrying_trace
    with (P := fun new => Forall (fun rec => levelname rec <> DEBUG)
                                 (logs new)).
  - intros st0 r0 st0' H.
    destruct (configured_dec bot_token chat_id) as [Hc | Hc].
    + destruct (send_body_adds send_message content t Hc _ H) as [p [Hp ->]].
      eexists. split; [exact Hp | apply levels_send_attempt].
    + rewrite body_unconfigured in H by exact Hc. injection H as <- <-.
      eexists. split; [reflexivity|]. repeat constructor. discriminate.
  - intros a b Ha Hb. rewrite logs_app. apply Forall_app. now split.
  - intros a _. constructor.
Qed.

Lemma handled_after_setup LOG_DIR root rec :
  handled_by (LogConfig.setup_logger LOG_DIR root) rec
  = if level_eqb (levelname rec) DEBUG then []
    else [LogConfig.file_handler LOG_DIR; LogConfig.console_handler].
Proof.
  rewrite setup_logger_spec. unfold handled_by, isEnabledFor.
  cbn [logger_level handlers]. destruct (levelname rec); reflexivity.
Qed.

(** X12: once [setup_logger] has run, the root logger passes a record on
    only from INFO up.  The two records of [debug_watcher] are at DEBUG
    and reach no handler; every record that [safe_fetch] and
    [send_telegram_message] log reaches both the file and the console
    handler. *)
Theorem debug_records_reach_no_handler LOG_DIR root :
  (forall float (format_3f : float -> pystr) (format_mb : Z -> pystr)
          func_name cost mem_used,
      handled_by (LogConfig.setup_logger LOG_DIR root) (started func_name)
      = []
      /\ handled_by (LogConfig.setup_logger LOG_DIR root)
           (finished format_3f format_mb func_name cost mem_used)
         = [])
  /\ (forall W T (method : W -> outcome exception T * W) fuel st r st',
        safe_fetch method fuel st = Some (r, st') ->
        exists new,
          snd st' = snd st ++ new
          /\ Forall (fun rec =>
                       handled_by (LogConfig.setup_logger LOG_DIR root) rec
                       = [LogConfig.file_handler LOG_DIR;
                          LogConfig.console_handler])
                    (logs new))
  /\ (forall W Message bot_token chat_id
             (send_message : Bot -> pystr -> pystr -> ParseMode -> W ->
                             outcome exception Message * W)
             content title fuel st r st',
        send_telegram_message bot_token chat_id send_message content title
          fuel st
        = Some (r, st') ->
        exists new,
          snd st' = snd st ++ new
          /\ Forall (fun rec =>
                       handled_by (LogConfig.setup_logger LOG_DIR root) rec
                       = [LogConfig.file_handler LOG_DIR;
                          LogConfig.console_handler])
                    (logs new)).
Proof.
  assert (Hup : forall rec,
             levelname rec <> DEBUG ->
             handled_by (LogConfig.setup_logger LOG_DIR root) rec
             = [LogConfig.file_handler LOG_DIR; LogConfig.console_handler]).
  { intros rec H. rewrite handled_after_setup.
    destruct (levelname rec); [contradiction | reflexivity ..]. }
  split; [|split].
  - intros. rewrite !handled_after_setup. split; reflexivity.
  - intros W T method fuel st r st' Hrun.
    destruct (safe_fetch_levels _ _ _ Hrun) as [new [Htr Hall]].
    exists new. split; [exact Htr|].
    eapply Forall_impl; [|exact Hall]. exact Hup.
  - intros W Message bot_token chat_id send_message content title fuel st
           r st' Hrun.
    destruct (send_levels _ _ _ _ _ _ _ Hrun) as [new [Htr Hall]].
    exists new. split; [exact Htr|].
    eapply Forall_impl; [|exact Hall]. exact Hup.
Qed.

Lemma debug_records_reach_no_handler_witness :
  exists new,
    snd ([] : list (outcome exception nat),
         attempts_then [fetch_failed Scenario.timed_out] [Await])
    = snd ([Raise Scenario.timed_out] : list (outcome exception nat),
           [] : trace) ++ new
    /\ Forall (fun rec =>
                 handled_by
                   (LogConfig.setup_logger (lit "/opt/bot")
                      (mkLogger WARNING []))
                   rec
                 = [LogConfig.file_handler (lit "/opt/bot");
                    LogConfig.console_handler])
              (logs new).
Proof.
  apply (proj1 (proj2 (debug_records_reach_no_handler (lit "/opt/bot")
                         (mkLogger WARNING [])))
           _ _ (Scenario.scripted (Return 7)) 3
           ([Raise Scenario.timed_out], []) (Return 7)).
  reflexivity.
Defined.

(** ** LogConfig.clean_old_logs *)

Section CleanOldLogsFacts.

Variable LOG_DIR : pystr.
Variables FS Time : Type.
Variable path_exists : pystr -> FS -> bool.
Variable listdir : pystr -> FS -> outcome exception (list pystr).
Variable time_time : FS -> Time.
Variable st_mtime : pystr -> FS -> outcome exception Time.
Variable os_remove : pystr -> FS -> outcome exception unit * FS.
Variable lt : Time -> Time -> bool.
Variable minus : Time -> Z -> Time.
Variable print : pystr -> FS -> outcome exception unit * FS.

Local Abbreviation the_log := (lit "trading_system.log").
Local Abbreviation log_path :=
  (path_join LOG_DIR (lit "trading_system.log")).
Let sweep := LogConfig.sweep LOG_DIR st_mtime os_remove lt minus print.
Let clean :=
  LogConfig.clean_old_logs LOG_DIR path_exists listdir time_time st_mtime
    os_remove lt minus print.

Lemma sweep_other now fname names st :
  fname <> the_log -> sweep now (fname :: names) st = sweep now names st.
Proof.
  intros H. unfold sweep. cbn [LogConfig.sweep].
  rewrite (pystr_eqb_neq H). reflexivity.
Qed.

Lemma sweep_the_log now names st :
  sweep now (the_log :: names) st
  = match st_mtime log_path (fst st) with
    | Raise e => (Raise e, (fst st, snd st ++ [Stat log_path]))
    | Return mtime =>
        if lt mtime (minus now (2 * 86400)) then
          match os_remove log_path (fst st) with
          | (Return _, fs') =>
              sweep now names
                (fs', (snd st ++ [Stat log_path]) ++ [Remove log_path])
          | (Raise e, fs') =>
              match print (lit "删除旧日志失败 " ++ the_log ++ lit ": "
                           ++ str e) fs' with
              | (Return _, fs'') =>
                  sweep now names
                    (fs'', ((snd st ++ [Stat log_path]) ++ [Remove log_path])
                           ++ [Print (lit "删除旧日志失败 " ++ the_log
                                      ++ lit ": " ++ str e)])
              | (Raise e', fs'') =>
                  (Raise e',
                   (fs'', ((snd st ++ [Stat log_path]) ++ [Remove log_path])
                          ++ [Print (lit "删除旧日志失败 " ++ the_log
                                     ++ lit ": " ++ str e)]))
              end
          end
        else sweep now names (fst st, snd st ++ [Stat log_path])
    end.
Proof. reflexivity. Qed.

Lemma name_dec (fname : pystr) : {fname = the_log} + {fname <> the_log}.
Proof. apply pystr_eq_dec. Qed.

(** X13: [clean_old_logs] looks at one file only.  Every call it makes to
    [os.stat] and [os.remove] is for "trading_system.log" in the log
    directory, whatever else the directory holds: rotated files such as
    "trading_system.log.2025-01-01" are never examined nor removed. *)
Theorem clean_old_logs_touches_only_the_log st r st' :
  clean st = (r, st') ->
  exists new,
    snd st' = snd st ++ new
    /\ Forall (about_path (path_join LOG_DIR (lit "trading_system.log"))) new.
Proof.
  assert (Hsweep : forall now names st r st',
             sweep now names st = (r, st') ->
             exists new, snd st' = snd st ++ new
                         /\ Forall (about_path log_path) new).
  { intros now names. induction names as [|fname names IH];
      intros st0 r0 st0' H.
    - injection H as <- <-. exists []. now rewrite app_nil_r.
    - destruct (name_dec fname) as [-> | Hother].
      + rewrite sweep_the_log in H.
        destruct (st_mtime log_path (fst st0)) as [mtime | e].
        * destruct (lt mtime (minus now (2 * 86400))).
          -- destruct (os_remove log_path (fst st0)) as [[u | e] fs'].
             ++ destruct (IH _ _ _ H) as [new [Hnew Hall]].
                cbn [snd] in Hnew. rewrite <- !app_assoc in Hnew.
                eexists. split; [exact Hnew|].
                repeat (constructor; [reflexivity || exact I|]). exact Hall.
             ++ destruct (print _ fs') as [[u | e'] fs''].
                ** destruct (IH _ _ _ H) as [new [Hnew Hall]].
                   cbn [snd] in Hnew. rewrite <- !app_assoc in Hnew.
                   eexists. split; [exact Hnew|].
                   repeat (constructor; [reflexivity || exact I|]).
                   exact Hall.
                ** injection H as <- <-. cbn [snd]. rewrite <- !app_assoc.
                   eexists. split; [reflexivity|].
                   repeat (constructor; [reflexivity || exact I|]).
                   constructor.
          -- destruct (IH _ _ _ H) as [new [Hnew Hall]].
             cbn [snd] in Hnew. rewrite <- !app_assoc in Hnew.
             eexists. split; [exact Hnew|].
             constructor; [reflexivity | exact Hall].
        * injection H as <- <-. eexists. split; [reflexivity|].
          constructor; [reflexivity | constructor].
      + rewrite sweep_other in H by exact Hother. exact (IH _ _ _ H). }
  unfold clean, LogConfig.clean_old_logs. intros H.
  destruct (negb (path_exists LOG_DIR (fst st))).
  - injection H as <- <-. exists []. now rewrite app_nil_r.
  - destruct (listdir LOG_DIR (fst st)) as [names | e].
    + exact (Hsweep _ _ _ _ _ H).
    + injection H as <- <-. exists []. now rewrite app_nil_r.
Qed.

(** X15: [os.stat] is called outside the [try]: when the directory exists
    and lists the log file but [os.stat] fails for it, [clean_old_logs]
    raises that exception, and nothing has been removed. *)
Theorem clean_old_logs_raises_when_stat_fails st names e :
  path_exists LOG_DIR (fst st) = true ->
  listdir LOG_DIR (fst st) = Return names ->
  In (lit "trading_system.log") names ->
  (forall fs,
      st_mtime (path_join LOG_DIR (lit "trading_system.log")) fs = Raise e) ->
  clean st
  = (Raise e,
     (fst st, snd st ++ [Stat (path_join LOG_DIR (lit "trading_system.log"))])).
Proof.
  intros Hexists Hlist Hin Hstat.
  unfold clean, LogConfig.clean_old_logs. rewrite Hexists, Hlist.
  cbn [negb]. fold sweep. clear Hlist Hexists.
  induction names as [|fname names IH]; [destruct Hin|].
  destruct (name_dec fname) as [-> | Hother].
  - rewrite sweep_the_log. now rewrite Hstat.
  - rewrite sweep_other by exact Hother. apply IH.
    destruct Hin as [Heq | Hin]; [contradiction | exact Hin].
Qed.

(** X16: a log file that is not older than two days is left alone: when
    the directory can be listed and [os.stat] gives a time that is not
    before [now - 2 * 86400], the file system is unchanged, nothing is
    removed and nothing is printed; the only calls are the [os.stat] of
    the log file. *)
Theorem a_fresh_log_is_kept st names mtime :
  listdir LOG_DIR (fst st) = Return names ->
  (forall fs,
      st_mtime (path_join LOG_DIR (lit "trading_system.log")) fs
      = Return mtime) ->
  lt mtime (minus (time_time (fst st)) (2 * 86400)) = false ->
  exists k,
    clean st
    = (Return tt,
       (fst st,
        snd st
        ++ repeat (Stat (path_join LOG_DIR (lit "trading_system.log"))) k)).
Proof.
  intros Hlist Hstat Hfresh.
  assert (Hsweep : forall names st0,
             exists k,
               sweep (time_time (fst st)) names st0
               = (Return tt, (fst st0, snd st0 ++ repeat (Stat log_path) k))).
  { clear Hlist names.
    induction names as [|fname names IH]; intros st0.
    - exists 0. simpl. rewrite app_nil_r. now destruct st0.
    - destruct (name_dec fname) as [-> | Hother].
      + rewrite sweep_the_log, Hstat, Hfresh.
        destruct (IH (fst st0, snd st0 ++ [Stat log_path])) as [k Hk].
        exists (S k). rewrite Hk. cbn [fst snd repeat].
        now rewrite <- app_assoc.
      + rewrite sweep_other by exact Hother. apply IH. }
  unfold clean, LogConfig.clean_old_logs.
  destruct (negb (path_exists LOG_DIR (fst st))).
  - exists 0. simpl. rewrite app_nil_r. now destruct st.
  - rewrite Hlist. apply Hsweep.
Qed.

End CleanOldLogsFacts.

Section CleanOldLogsStale.

Variable LOG_DIR : pystr.
Variables FS Time : Type.
Variable path_exists : pystr -> FS -> bool.
Variable listdir : pystr -> FS -> outcome exception (list pystr).
Variable time_time : FS -> Time.
Variable st_mtime : pystr -> FS -> outcome exception Time.
Variable os_remove : pystr -> FS -> outcome exception unit * FS.
Variable lt : Time -> Time -> bool.
Variable minus : Time -> Z -> Time.
Variable print : pystr -> FS -> outcome exception unit * FS.

Local Abbreviation the_log := (lit "trading_system.log").
Local Abbreviation log_path :=
  (path_join LOG_DIR (lit "trading_system.log")).

Local Abbreviation sweep :=
  (LogConfig.sweep LOG_DIR st_mtime os_remove lt minus print).

Lemma sweep_others now names st :
  Forall (fun fname => fname <> the_log) names ->
  sweep now names st = (Return tt, st).
Proof.
  intros Hall. induction Hall as [|fname names Hother _ IH]; [reflexivity|].
  now rewrite sweep_other.
Qed.

(** X17: the file [clean_old_logs] removes is the live log itself: when
    "trading_system.log" is listed, its modification time is before
    [now - 2 * 86400] and [os.remove] accepts, the run makes one
    [os.stat] and one [os.remove], both for that file, prints nothing and
    returns. *)
Theorem a_stale_log_is_removed st before after mtime fs' :
  path_exists LOG_DIR (fst st) = true ->
  listdir LOG_DIR (fst st) = Return (before ++ the_log :: after) ->
  Forall (fun fname => fname <> the_log) before ->
  Forall (fun fname => fname <> the_log) after ->
  st_mtime log_path (fst st) = Return mtime ->
  lt mtime (minus (time_time (fst st)) (2 * 86400)) = true ->
  os_remove log_path (fst st) = (Return tt, fs') ->
  LogConfig.clean_old_logs LOG_DIR path_exists listdir time_time st_mtime
    os_remove lt minus print st
  = (Return tt, (fs', snd st ++ [Stat log_path; Remove log_path])).
Proof.
  intros Hexists Hlist Hbefore Hafter Hstat Hstale Hremove.
  assert (Hsweep :
            sweep (time_time (fst st)) (before ++ the_log :: after) st
            = (Return tt,
               (fs', snd st ++ [Stat log_path; Remove log_path]))).
  { clear Hlist.
    induction Hbefore as [|fname before Hother _ IH]; cbn [List.app].
    - rewrite sweep_the_log, Hstat, Hstale, Hremove.
      rewrite sweep_others by exact Hafter. now rewrite <- app_assoc.
    - rewrite sweep_other by exact Hother. exact IH. }
  unfold LogConfig.clean_old_logs. rewrite Hexists, Hlist. exact Hsweep.
Qed.

(** X14: a refusal of [os.remove] is caught and reported: when the stale
    log is listed, [os.remove] raises [e] and the [print] goes through,
    [clean_old_logs] makes the [os.stat] and the [os.remove] for that
    file, prints "删除旧日志失败 trading_system.log: " followed by
    [str(e)], and returns normally. *)
Theorem clean_old_logs_survives_a_failed_removal
    st before after mtime e fs1 fs2 :
  path_exists LOG_DIR (fst st) = true ->
  listdir LOG_DIR (fst st) = Return (before ++ the_log :: after) ->
  Forall (fun fname => fname <> the_log) before ->
  Forall (fun fname => fname <> the_log) after ->
  st_mtime log_path (fst st) = Return mtime ->
  lt mtime (minus (time_time (fst st)) (2 * 86400)) = true ->
  os_remove log_path (fst st) = (Raise e, fs1) ->
  print (lit "删除旧日志失败 " ++ lit "trading_system.log" ++ lit ": "
         ++ str e) fs1
  = (Return tt, fs2) ->
  LogConfig.clean_old_logs LOG_DIR path_exists listdir time_time st_mtime
    os_remove lt minus print st
  = (Return tt,
     (fs2, snd st ++ [Stat log_path; Remove log_path;
                      Print (lit "删除旧日志失败 "
                             ++ lit "trading_system.log" ++ lit ": "
                             ++ str e)])).
Proof.
  intros Hexists Hlist Hbefore Hafter Hstat Hstale Hremove Hprint.
  assert (Hsweep :
            sweep (time_time (fst st)) (before ++ the_log :: after) st
            = (Return tt,
               (fs2, snd st ++ [Stat log_path; Remove log_path;
                                Print (lit "删除旧日志失败 "
                                       ++ lit "trading_system.log"
                                       ++ lit ": " ++ str e)]))).
  { clear Hlist.
    induction Hbefore as [|fname before Hother _ IH]; cbn [List.app].
    - rewrite sweep_the_log, Hstat, Hstale, Hremove, Hprint.
      rewrite sweep_others by exact Hafter. now rewrite <- !app_assoc.
    - rewrite sweep_other by exact Hother. exact IH. }
  unfold LogConfig.clean_old_logs. rewrite Hexists, Hlist. exact Hsweep.
Qed.

(** X18: the [print] in the handler is not guarded: when [os.remove]
    raises for the stale log and the [print] raises [e'] in turn,
    [clean_old_logs] raises [e'], after the [os.stat], the [os.remove]
    and the attempted [print]. *)
Theorem clean_old_logs_raises_when_print_fails
    st before after mtime e fs1 e' fs2 :
  path_exists LOG_DIR (fst st) = true ->
  listdir LOG_DIR (fst st) = Return (before ++ the_log :: after) ->
  Forall (fun fname => fname <> the_log) before ->
  st_mtime log_path (fst st) = Return mtime ->
  lt mtime (minus (time_time (fst st)) (2 * 86400)) = true ->
  os_remove log_path (fst st) = (Raise e, fs1) ->
  print (lit "删除旧日志失败 " ++ lit "trading_system.log" ++ lit ": "
         ++ str e) fs1
  = (Raise e', fs2) ->
  LogConfig.clean_old_logs LOG_DIR path_exists listdir time_time st_mtime
    os_remove lt minus print st
  = (Raise e',
     (fs2, snd st ++ [Stat log_path; Remove log_path;
                      Print (lit "删除旧日志失败 "
                             ++ lit "trading_system.log" ++ lit ": "
                             ++ str e)])).
Proof.
  intros Hexists Hlist Hbefore Hstat Hstale Hremove Hprint.
  assert (Hsweep :
            sweep (time_time (fst st)) (before ++ the_log :: after) st
            = (Raise e',
               (fs2, snd st ++ [Stat log_path; Remove log_path;
                                Print (lit "删除旧日志失败 "
                                       ++ lit "trading_system.log"
                                       ++ lit ": " ++ str e)]))).
  { clear Hlist.
    induction Hbefore as [|fname before Hother _ IH]; cbn [List.app].
    - rewrite sweep_the_log, Hstat, Hstale, Hremove, Hprint.
      now rewrite <- !app_assoc.
    - rewrite sweep_other by exact Hother. exact IH. }
  unfold LogConfig.clean_old_logs. rewrite Hexists, Hlist. exact Hsweep.
Qed.

End CleanOldLogsStale.

Lemma clean_old_logs_touches_only_the_log_witness :
  exists new,
    snd (Some [Disk.mkFile (lit "trading_system.log.2025-01-01") 0 false],
         [Stat (lit "/opt/bot/trading_system.log");
          Remove (lit "/opt/bot/trading_system.log")])
    = snd (Some [Disk.mkFile (lit "trading_system.log") 0 false;
                 Disk.mkFile (lit "trading_system.log.2025-01-01") 0 false],
           [] : list os_call) ++ new
    /\ Forall (about_path
                 (path_join (lit "/opt/bot") (lit "trading_system.log")))
              new.
Proof.
  apply (@clean_old_logs_touches_only_the_log (lit "/opt/bot") _ _
           Disk.path_exists Disk.listdir (fun _ => 1000000%Z)
           (Disk.st_mtime (lit "/opt/bot")) (Disk.os_remove (lit "/opt/bot"))
           Z.ltb Z.sub (fun _ fs => (Return tt, fs))
           (Some [Disk.mkFile (lit "trading_system.log") 0 false;
                  Disk.mkFile (lit "trading_system.log.2025-01-01") 0 false],
            [])
           (Return tt)).
  reflexivity.
Defined.

Lemma clean_old_logs_survives_a_failed_removal_witness :
  Disk.clean (lit "/opt/bot") 1000000
    (Some [Disk.mkFile (lit "helpers.py") 0 false;
           Disk.mkFile (lit "trading_system.log") 0 true])
  = (Return tt,
     (Some [Disk.mkFile (lit "helpers.py") 0 false;
            Disk.mkFile (lit "trading_system.log") 0 true],
      [] ++ [Stat (path_join (lit "/opt/bot") (lit "trading_system.log"));
             Remove (path_join (lit "/opt/bot") (lit "trading_system.log"));
             Print (lit "删除旧日志失败 " ++ lit "trading_system.log"
                    ++ lit ": "
                    ++ str (OtherException (lit "PermissionError")
                              (lit "/opt/bot/trading_system.log")))])).
Proof.
  eapply (@clean_old_logs_survives_a_failed_removal (lit "/opt/bot") _ _
           Disk.path_exists Disk.listdir (fun _ => 1000000%Z)
           (Disk.st_mtime (lit "/opt/bot")) (Disk.os_remove (lit "/opt/bot"))
           Z.ltb Z.sub (fun _ fs => (Return tt, fs))
           (Some [Disk.mkFile (lit "helpers.py") 0 false;
                  Disk.mkFile (lit "trading_system.log") 0 true], [])
           [lit "helpers.py"] [] 0%Z).
  - reflexivity.
  - reflexivity.
  - repeat constructor; discriminate.
  - constructor.
  - reflexivity.
  - reflexivity.
  - reflexivity.
  - reflexivity.
Defined.

Lemma clean_old_logs_raises_when_print_fails_witness :
  LogConfig.clean_old_logs (lit "/opt/bot")
    Disk.path_exists Disk.listdir (fun _ => 1000000%Z)
    (Disk.st_mtime (lit "/opt/bot")) (Disk.os_remove (lit "/opt/bot"))
    Z.ltb Z.sub
    (fun text d => (Raise (OtherException (lit "UnicodeEncodeError") text), d))
    (Some [Disk.mkFile (lit "trading_system.log") 0 true], [])
  = (Raise (OtherException (lit "UnicodeEncodeError")
              (lit "删除旧日志失败 " ++ lit "trading_system.log" ++ lit ": "
               ++ str (OtherException (lit "PermissionError")
                         (lit "/opt/bot/trading_system.log")))),
     (Some [Disk.mkFile (lit "trading_system.log") 0 true],
      [] ++ [Stat (path_join (lit "/opt/bot") (lit "trading_system.log"));
             Remove (path_join (lit "/opt/bot") (lit "trading_system.log"));
             Print (lit "删除旧日志失败 " ++ lit "trading_system.log"
                    ++ lit ": "
                    ++ str (OtherException (lit "PermissionError")
                              (lit "/opt/bot/trading_system.log")))])).
Proof.
  eapply (@clean_old_logs_raises_when_print_fails (lit "/opt/bot") _ _
           Disk.path_exists Disk.listdir (fun _ => 1000000%Z)
           (Disk.st_mtime (lit "/opt/bot")) (Disk.os_remove (lit "/opt/bot"))
           Z.ltb Z.sub
           (fun text d =>
              (Raise (OtherException (lit "UnicodeEncodeError") text), d))
           (Some [Disk.mkFile (lit "trading_system.log") 0 true], [])
           [] [] 0%Z).
  - reflexivity.
  - reflexivity.
  - constructor.
  - reflexivity.
  - reflexivity.
  - reflexivity.
  - reflexivity.
Defined.

Lemma clean_old_logs_raises_when_stat_fails_witness :
  LogConfig.clean_old_logs (lit "/opt/bot")
    (fun _ (_ : unit) => true)
    (fun _ _ => Return [lit "requirements.txt"; lit "trading_system.log"])
    (fun _ => 1000000%Z)
    (fun path _ => Raise (OtherException (lit "FileNotFoundError") path))
    (fun _ fs => (Return tt, fs)) Z.ltb Z.sub
           (fun _ fs => (Return tt, fs)) (tt, [])
  = (Raise (OtherException (lit "FileNotFoundError")
              (lit "/opt/bot/trading_system.log")),
     (tt, [] ++ [Stat (path_join (lit "/opt/bot")
                         (lit "trading_system.log"))])).
Proof.
  apply (@clean_old_logs_raises_when_stat_fails (lit "/opt/bot") unit Z
           (fun _ _ => true)
           (fun _ _ => Return [lit "requirements.txt";
                               lit "trading_system.log"])
           (fun _ => 1000000%Z)
           (fun path _ => Raise (OtherException (lit "FileNotFoundError")
                                   path))
           (fun _ fs => (Return tt, fs)) Z.ltb Z.sub
           (fun _ fs => (Return tt, fs)) (tt, [])
           [lit "requirements.txt"; lit "trading_system.log"]
           (OtherException (lit "FileNotFoundError")
              (lit "/opt/bot/trading_system.log"))).
  - reflexivity.
  - reflexivity.
  - right. left. reflexivity.
  - intros fs. reflexivity.
Defined.

Lemma a_fresh_log_is_kept_witness :
  exists k,
    LogConfig.clean_old_logs (lit "/opt/bot")
      (fun _ (_ : unit) => true)
      (fun _ _ => Return [lit "trading_system.log"])
      (fun _ => 1000000%Z)
      (fun _ _ => Return (1000000 - 172800)%Z)
      (fun path fs =>
         (Raise (OtherException (lit "PermissionError") path), fs))
      Z.ltb Z.sub (fun _ fs => (Return tt, fs)) (tt, [])
    = (Return tt,
       (tt, [] ++ repeat (Stat (path_join (lit "/opt/bot")
                                  (lit "trading_system.log"))) k)).
Proof.
  apply (@a_fresh_log_is_kept (lit "/opt/bot") unit Z
           (fun _ _ => true)
           (fun _ _ => Return [lit "trading_system.log"])
           (fun _ => 1000000%Z)
           (fun _ _ => Return (1000000 - 172800)%Z)
           (fun path fs =>
              (Raise (OtherException (lit "PermissionError") path), fs))
           Z.ltb Z.sub (fun _ fs => (Return tt, fs)) (tt, [])
           [lit "trading_system.log"] (1000000 - 172800)%Z).
  - reflexivity.
  - intros fs. reflexivity.
  - reflexivity.
Defined.

Lemma a_stale_log_is_removed_witness :
  Disk.clean (lit "/opt/bot") 1000000
    (Some [Disk.mkFile (lit "helpers.py") 0 false;
           Disk.mkFile (lit "trading_system.log") 0 false;
           Disk.mkFile (lit "trading_system.log.2025-01-01") 0 false])
  = (Return tt,
     (Some [Disk.mkFile (lit "helpers.py") 0 false;
            Disk.mkFile (lit "trading_system.log.2025-01-01") 0 false],
      [] ++ [Stat (path_join (lit "/opt/bot") (lit "trading_system.log"));
             Remove (path_join (lit "/opt/bot")
                       (lit "trading_system.log"))])).
Proof.
  apply (@a_stale_log_is_removed (lit "/opt/bot") _ _
           Disk.path_exists Disk.listdir (fun _ => 1000000%Z)
           (Disk.st_mtime (lit "/opt/bot")) (Disk.os_remove (lit "/opt/bot"))
           Z.ltb Z.sub (fun _ fs => (Return tt, fs))
           (Some [Disk.mkFile (lit "helpers.py") 0 false;
                  Disk.mkFile (lit "trading_system.log") 0 false;
                  Disk.mkFile (lit "trading_system.log.2025-01-01") 0 false],
            [])
           [lit "helpers.py"] [lit "trading_system.log.2025-01-01"] 0%Z).
  - reflexivity.
  - reflexivity.
  - repeat constructor; discriminate.
  - repeat constructor; discriminate.
  - reflexivity.
  - reflexivity.
  - reflexivity.
Defined.

Example a_locked_log_is_reported :
  Disk.clean (lit "/opt/bot") 1000000
    (Some [Disk.mkFile (lit "trading_system.log") 0 true])
  = (Return tt,
     (Some [Disk.mkFile (lit "trading_system.log") 0 true],
      [Stat (lit "/opt/bot/trading_system.log");
       Remove (lit "/opt/bot/trading_system.log");
       Print (lit "删除旧日志失败 trading_system.log: "
              ++ lit "/opt/bot/trading_system.log")])).
Proof. reflexivity. Qed.

Example a_missing_directory_is_skipped :
  Disk.clean (lit "/opt/bot") 1000000 None = (Return tt, (None, [])).
Proof. reflexivity. Qed.

Example the_boundary_is_kept :
  Disk.clean (lit "/opt/bot") 1000000
    (Some [Disk.mkFile (lit "trading_system.log") (1000000 - 172800) false])
  = (Return tt,
     (Some [Disk.mkFile (lit "trading_system.log") (1000000 - 172800) false],
      [Stat (lit "/opt/bot/trading_system.log")])).
Proof. reflexivity. Qed.
